(** * Marketplace backend: listing lifecycle, order escrow and rating aggregation

    A shallow embedding of the route handlers of the marketplace backend
    (products, orders, reviews, admin) over a document store, and the
    properties of the order/escrow state machine and of the rating
    aggregator.

    Modelling conventions.
    - A collection is a finite map from document id to document
      ([gmap nat _]); [findById] is lookup, [save] of a loaded document
      is insertion under its id, [findByIdAndUpdate] is [alter] (a no-op
      when the id does not resolve), [deleteMany] is [filter].
    - A handler takes the authenticated caller (what the [auth]
      middleware stores in [req.user]) and the request parameters, and
      returns the HTTP response together with the new store.
    - Persistence is total: database failures, and with them the
      [catch] branches (HTTP 500), are not modelled.  The one exception a
      handler raises by itself, in POST /orders on a product whose seller
      document is gone, is.
    - JavaScript numbers holding ratings and averages are modelled by
      exact rationals ([Q]); ratings are integers. *)

From Stdlib Require Import QArith Qround.
From stdpp Require Import gmap strings list fin_maps.
From stdpp Require Import sorting.

Local Open Scope string_scope.
Local Close Scope Q_scope.

(** ** Data model (models/Product.js, models/Order.js, Review, User) *)

Inductive Role := R_buyer | R_seller | R_both | R_admin.

(** Product.status: the schema enum ['available','sold','pending'] plus
    the 'suspended' value the admin status route accepts. *)
Inductive ProductStatus := P_available | P_sold | P_pending | P_suspended.

(** Order.status enum of models/Order.js. *)
Inductive OrderStatus :=
  | O_pending | O_confirmed | O_shipped | O_delivered
  | O_completed | O_cancelled | O_disputed.

(** Order.paymentStatus enum of models/Order.js. *)
Inductive PaymentStatus := Pay_pending | Pay_escrowed | Pay_released | Pay_refunded.

Inductive ReviewType := RT_product | RT_seller.

#[global] Instance Role_eq_dec : EqDecision Role.
Proof. solve_decision. Defined.
#[global] Instance ProductStatus_eq_dec : EqDecision ProductStatus.
Proof. solve_decision. Defined.
#[global] Instance OrderStatus_eq_dec : EqDecision OrderStatus.
Proof. solve_decision. Defined.
#[global] Instance PaymentStatus_eq_dec : EqDecision PaymentStatus.
Proof. solve_decision. Defined.

(** ratings: { average, count }, both defaulting to 0. *)
Record Ratings := mkRatings { average : Q; count : nat }.

Definition default_ratings : Ratings := mkRatings 0%Q 0.

Record User := mkUser {
  u_role : Role;
  u_ratings : Ratings
}.

Record Product := mkProduct {
  p_sellerId : nat;
  p_price : Q;
  p_status : ProductStatus;
  p_buyerId : option nat;
  p_ratings : Ratings
}.

Record ShippingAddress := mkAddress {
  street : string; city : string; state : string; zipCode : string
}.

Record Order := mkOrder {
  o_productId : nat;
  o_buyerId : nat;
  o_sellerId : nat;
  o_amount : Q;
  o_status : OrderStatus;
  o_paymentStatus : PaymentStatus;
  o_shippingAddress : ShippingAddress;
  o_trackingNumber : option string;
  o_notes : option string
}.

Record Review := mkReview {
  r_productId : nat;
  r_userId : nat;
  r_sellerId : nat;
  r_rating : Z;
  r_comment : string;
  r_reviewType : ReviewType
}.

(** The document store: one collection per model. *)
Record Store := mkStore {
  users : gmap nat User;
  products : gmap nat Product;
  orders : gmap nat Order;
  reviews : gmap nat Review
}.

(** [req.user] as left by the [auth] middleware. *)
Record Caller := mkCaller { c_id : nat; c_role : Role }.

(** An HTTP response: [Ok code] is [res.status(code).json(entity)] on a
    success path, [Err code msg] is [res.status(code).json({message})]. *)
Inductive Response :=
  | Ok (code : nat)
  | Err (code : nat) (message : string).

Definition succeeded (r : Response) : bool :=
  match r with Ok _ => true | Err _ _ => false end.

(** Field updates on documents and on the store. *)
Definition set_p_status (st : ProductStatus) (p : Product) : Product :=
  mkProduct (p_sellerId p) (p_price p) st (p_buyerId p) (p_ratings p).
Definition set_p_buyerId (b : option nat) (p : Product) : Product :=
  mkProduct (p_sellerId p) (p_price p) (p_status p) b (p_ratings p).
Definition set_p_ratings (r : Ratings) (p : Product) : Product :=
  mkProduct (p_sellerId p) (p_price p) (p_status p) (p_buyerId p) r.
Definition set_u_ratings (r : Ratings) (u : User) : User :=
  mkUser (u_role u) r.
Definition set_o_status (st : OrderStatus) (o : Order) : Order :=
  mkOrder (o_productId o) (o_buyerId o) (o_sellerId o) (o_amount o) st
          (o_paymentStatus o) (o_shippingAddress o) (o_trackingNumber o) (o_notes o).
Definition set_o_paymentStatus (ps : PaymentStatus) (o : Order) : Order :=
  mkOrder (o_productId o) (o_buyerId o) (o_sellerId o) (o_amount o) (o_status o)
          ps (o_shippingAddress o) (o_trackingNumber o) (o_notes o).
Definition set_o_trackingNumber (t : option string) (o : Order) : Order :=
  mkOrder (o_productId o) (o_buyerId o) (o_sellerId o) (o_amount o) (o_status o)
          (o_paymentStatus o) (o_shippingAddress o) t (o_notes o).
Definition set_r_rating (x : Z) (r : Review) : Review :=
  mkReview (r_productId r) (r_userId r) (r_sellerId r) x (r_comment r) (r_reviewType r).
Definition set_r_comment (c : string) (r : Review) : Review :=
  mkReview (r_productId r) (r_userId r) (r_sellerId r) (r_rating r) c (r_reviewType r).

Definition with_users (f : gmap nat User → gmap nat User) (s : Store) : Store :=
  mkStore (f (users s)) (products s) (orders s) (reviews s).
Definition with_products (f : gmap nat Product → gmap nat Product) (s : Store) : Store :=
  mkStore (users s) (f (products s)) (orders s) (reviews s).
Definition with_orders (f : gmap nat Order → gmap nat Order) (s : Store) : Store :=
  mkStore (users s) (products s) (f (orders s)) (reviews s).
Definition with_reviews (f : gmap nat Review → gmap nat Review) (s : Store) : Store :=
  mkStore (users s) (products s) (orders s) (f (reviews s)).

(** A new document gets an id no document of its collection has. *)
Definition new_id {A} (m : gmap nat A) : nat := fresh (dom m).

(** ** Listing lifecycle (product routes) *)

(** POST /api/products/:id/purchase *)
Definition purchase (u : Caller) (id : nat) (s : Store) : Response * Store :=
  match products s !! id with
  | None => (Err 404 "Product not found", s)
  | Some product =>
      if decide (p_status product ≠ P_available) then
        (Err 400 "Product is not available for purchase", s)
      else if decide (p_sellerId product = c_id u) then
        (Err 400 "You cannot purchase your own product", s)
      else
        let product := set_p_buyerId (Some (c_id u)) (set_p_status P_pending product) in
        (Ok 200, with_products (insert id product) s)
  end.

(** POST /api/products/:id/confirm-purchase *)
Definition confirm_purchase (u : Caller) (id : nat) (s : Store) : Response * Store :=
  match products s !! id with
  | None => (Err 404 "Product not found", s)
  | Some product =>
      if decide (p_buyerId product ≠ Some (c_id u)) then
        (Err 403 "Access denied. You are not the buyer.", s)
      else if decide (p_status product ≠ P_pending) then
        (Err 400 "Product is not in pending status", s)
      else
        let product := set_p_status P_sold product in
        (Ok 200, with_products (insert id product) s)
  end.

(** POST /api/products/:id/cancel-purchase *)
Definition cancel_purchase (u : Caller) (id : nat) (s : Store) : Response * Store :=
  match products s !! id with
  | None => (Err 404 "Product not found", s)
  | Some product =>
      let isBuyer := bool_decide (p_buyerId product = Some (c_id u)) in
      let isSeller := bool_decide (p_sellerId product = c_id u) in
      if negb isBuyer && negb isSeller then
        (Err 403 "Access denied.", s)
      else if decide (p_status product ≠ P_pending) then
        (Err 400 "Product is not in pending status", s)
      else
        let product := set_p_buyerId None (set_p_status P_available product) in
        (Ok 200, with_products (insert id product) s)
  end.

(** The [isSeller] middleware of middleware/auth. *)
Definition isSeller (u : Caller) : bool :=
  negb (bool_decide (c_role u ≠ R_seller) && bool_decide (c_role u ≠ R_both)).

(** DELETE /api/products/:id (product routes, behind [auth, isSeller]) *)
Definition delete_product_route (u : Caller) (id : nat) (s : Store) : Response * Store :=
  if negb (isSeller u) then (Err 403 "Access denied. Seller role required.", s)
  else
  match products s !! id with
  | None => (Err 404 "Product not found", s)
  | Some product =>
      if decide (p_sellerId product ≠ c_id u) then
        (Err 403 "Access denied. You are not the owner.", s)
      else if bool_decide (p_status product = P_sold)
              || bool_decide (p_status product = P_pending) then
        (Err 400 "Cannot delete a sold or pending product", s)
      else
        (Ok 200, with_products (delete id) s)
  end.

(** controllers/productController.js: exports.deleteProduct *)
Definition deleteProduct (u : Caller) (id : nat) (s : Store) : Response * Store :=
  match products s !! id with
  | None => (Err 404 "Product not found", s)
  | Some product =>
      if decide (p_sellerId product ≠ c_id u) then
        (Err 403 "Access denied", s)
      else
        (Ok 200, with_products (delete id) s)
  end.

(** ** Order lifecycle (routes/orders.js) *)

(** The [notEmpty] validators on the shipping address of POST /orders. *)
Definition validate_order_body (a : ShippingAddress) : list string :=
  (if decide (street a = "") then ["Street address is required"] else []) ++
  (if decide (city a = "") then ["City is required"] else []) ++
  (if decide (state a = "") then ["State is required"] else []) ++
  (if decide (zipCode a = "") then ["Zip code is required"] else []).

(** POST /orders.  [populate('sellerId')] replaces the seller reference
    by the user document, or by null when that user is gone; reading
    [product.sellerId._id] then throws and the handler answers 500. *)
Definition create_order (u : Caller) (productId : nat) (shippingAddress : ShippingAddress)
    (notes : option string) (s : Store) : Response * Store :=
  match validate_order_body shippingAddress with
  | e :: _ => (Err 400 e, s)
  | [] =>
    match products s !! productId with
    | None => (Err 404 "Product not found", s)
    | Some product =>
        if decide (p_status product ≠ P_available) then
          (Err 400 "Product is not available", s)
        else match users s !! p_sellerId product with
        | None => (Err 500 "Server error", s)
        | Some _ =>
          if decide (p_sellerId product = c_id u) then
            (Err 400 "Cannot purchase your own product", s)
          else
            let order := mkOrder productId (c_id u) (p_sellerId product) (p_price product)
                                 O_pending Pay_escrowed shippingAddress None notes in
            let s := with_orders (insert (new_id (orders s)) order) s in
            let s := with_products (alter (set_p_status P_pending) productId) s in
            (Ok 201, s)
        end
    end
  end.

(** PUT /orders/:id/ship.  The handler never reads the validation result,
    so an empty tracking number reaches [if (trackingNumber)] and is
    skipped there. *)
Definition ship_order (u : Caller) (id : nat) (trackingNumber : option string)
    (s : Store) : Response * Store :=
  match orders s !! id with
  | None => (Err 404 "Order not found", s)
  | Some order =>
      if decide (o_sellerId order ≠ c_id u) then
        (Err 403 "Access denied", s)
      else if decide (o_status order ≠ O_confirmed) then
        (Err 400 "Order must be confirmed before shipping", s)
      else
        let order := set_o_status O_shipped order in
        let order :=
          match trackingNumber with
          | Some t => if decide (t = "") then order
                      else set_o_trackingNumber (Some t) order
          | None => order
          end in
        (Ok 200, with_orders (insert id order) s)
  end.

(** PUT /orders/:id/confirm-delivery *)
Definition confirm_delivery (u : Caller) (id : nat) (s : Store) : Response * Store :=
  match orders s !! id with
  | None => (Err 404 "Order not found", s)
  | Some order =>
      if decide (o_buyerId order ≠ c_id u) then
        (Err 403 "Access denied", s)
      else if decide (o_status order ≠ O_shipped) then
        (Err 400 "Order must be shipped before delivery confirmation", s)
      else
        let order := set_o_paymentStatus Pay_released (set_o_status O_completed order) in
        let s := with_orders (insert id order) s in
        let s := with_products (alter (set_p_status P_sold) (o_productId order)) s in
        (Ok 200, s)
  end.

(** PUT /orders/:id/cancel *)
Definition cancel_order (u : Caller) (id : nat) (s : Store) : Response * Store :=
  match orders s !! id with
  | None => (Err 404 "Order not found", s)
  | Some order =>
      let canCancel := bool_decide (o_buyerId order = c_id u)
                       || bool_decide (o_sellerId order = c_id u) in
      if negb canCancel then
        (Err 403 "Access denied", s)
      else if bool_decide (o_status order ∈ [O_completed; O_cancelled]) then
        (Err 400 "Cannot cancel this order", s)
      else
        let order := set_o_paymentStatus Pay_refunded (set_o_status O_cancelled order) in
        let s := with_orders (insert id order) s in
        let s := with_products (alter (set_p_status P_available) (o_productId order)) s in
        (Ok 200, s)
  end.

(** ** Rating aggregator and review routes (routes/reviews.js) *)

(** [Review.find(query)]: the documents of the collection meeting the
    query, as an array. *)
Definition find_reviews (P : Review → Prop) `{!∀ r, Decision (P r)} (s : Store) : list Review :=
  (map_to_list (filter (λ kv, P kv.2) (reviews s))).*2.

(** [reviews.reduce((sum, review) => sum + review.rating, 0)] *)
Definition totalRating (rs : list Review) : Z :=
  fold_left (λ sum review, sum + r_rating review)%Z rs 0%Z.

(** [reviews.length > 0 ? totalRating / reviews.length : 0] *)
Definition averageRating (rs : list Review) : Q :=
  if decide (0 < length rs) then
    (inject_Z (totalRating rs) / inject_Z (Z.of_nat (length rs)))%Q
  else 0%Q.

Definition computed_ratings (rs : list Review) : Ratings :=
  mkRatings (averageRating rs) (length rs).

Definition updateProductRatings (productId : nat) (s : Store) : Store :=
  let reviews := find_reviews (λ r, r_productId r = productId) s in
  with_products (alter (set_p_ratings (computed_ratings reviews)) productId) s.

Definition updateSellerRatings (sellerId : nat) (s : Store) : Store :=
  let reviews := find_reviews (λ r, r_sellerId r = sellerId) s in
  with_users (alter (set_u_ratings (computed_ratings reviews)) sellerId) s.

(** The [isInt({min: 1, max: 5})] and [isLength({min: 1, max: 500})]
    validators of the review routes. *)
Definition valid_rating (rating : Z) : bool :=
  bool_decide (1 ≤ rating ≤ 5)%Z.
Definition valid_comment (comment : string) : bool :=
  bool_decide (1 ≤ String.length comment ≤ 500)%nat.

(** POST /api/reviews *)
Definition create_review (u : Caller) (productId : nat) (rating : Z) (comment : string)
    (reviewType : ReviewType) (s : Store) : Response * Store :=
  if negb (valid_rating rating && valid_comment comment) then
    (Err 400 "Validation failed", s)
  else
  match products s !! productId with
  | None => (Err 404 "Product not found", s)
  | Some product =>
      if decide (p_buyerId product ≠ Some (c_id u)) then
        (Err 403 "You can only review products you have purchased", s)
      else if decide (p_status product ≠ P_sold) then
        (Err 400 "You can only review completed purchases", s)
      else
        match find_reviews (λ r, r_productId r = productId ∧ r_userId r = c_id u) s with
        | _ :: _ => (Err 400 "You have already reviewed this product", s)
        | [] =>
            let review := mkReview productId (c_id u) (p_sellerId product)
                                   rating comment reviewType in
            let s := with_reviews (insert (new_id (reviews s)) review) s in
            let s := updateProductRatings productId s in
            let s := updateSellerRatings (p_sellerId product) s in
            (Ok 201, s)
        end
  end.

(** PUT /api/reviews/:id *)
Definition update_review (u : Caller) (id : nat) (rating : option Z)
    (comment : option string) (s : Store) : Response * Store :=
  if negb (from_option valid_rating true rating && from_option valid_comment true comment) then
    (Err 400 "Validation failed", s)
  else
  match reviews s !! id with
  | None => (Err 404 "Review not found", s)
  | Some review =>
      if decide (r_userId review ≠ c_id u) then
        (Err 403 "Access denied. You are not the owner.", s)
      else
        let updateData (r : Review) : Review :=
          let r := from_option (λ x, set_r_rating x r) r rating in
          from_option (λ c, set_r_comment c r) r comment in
        let s := with_reviews (alter updateData id) s in
        let s := if rating is Some _ then
                   updateSellerRatings (r_sellerId review)
                     (updateProductRatings (r_productId review) s)
                 else s in
        (Ok 200, s)
  end.

(** DELETE /api/reviews/:id *)
Definition delete_review (u : Caller) (id : nat) (s : Store) : Response * Store :=
  match reviews s !! id with
  | None => (Err 404 "Review not found", s)
  | Some review =>
      if decide (r_userId review ≠ c_id u) then
        (Err 403 "Access denied. You are not the owner.", s)
      else
        let s := with_reviews (delete id) s in
        let s := updateProductRatings (r_productId review) s in
        let s := updateSellerRatings (r_sellerId review) s in
        (Ok 200, s)
  end.

(** ** Admin routes (routes/admin.js), all behind [auth, isAdmin] *)

Definition isAdmin (u : Caller) : bool := bool_decide (c_role u = R_admin).

(** DELETE /admin/users/:id *)
Definition admin_delete_user (u : Caller) (userId : nat) (s : Store) : Response * Store :=
  if negb (isAdmin u) then (Err 403 "Access denied. Admin role required.", s)
  else
  match users s !! userId with
  | None => (Err 404 "User not found", s)
  | Some user =>
      if bool_decide (u_role user = R_admin) && bool_decide (userId ≠ c_id u) then
        (Err 403 "Cannot delete other admin users", s)
      else
        (Ok 200,
         mkStore (delete userId (users s))
                 (filter (λ kv, p_sellerId kv.2 ≠ userId) (products s))
                 (orders s)
                 (filter (λ kv, r_userId kv.2 ≠ userId) (reviews s)))
  end.

(** PUT /admin/products/:id/status *)
Definition admin_set_product_status (u : Caller) (id : nat) (status : ProductStatus)
    (s : Store) : Response * Store :=
  if negb (isAdmin u) then (Err 403 "Access denied. Admin role required.", s)
  else
  match products s !! id with
  | None => (Err 404 "Product not found", s)
  | Some _ => (Ok 200, with_products (alter (set_p_status status) id) s)
  end.

(** DELETE /admin/products/:id *)
Definition admin_delete_product (u : Caller) (id : nat) (s : Store) : Response * Store :=
  if negb (isAdmin u) then (Err 403 "Access denied. Admin role required.", s)
  else
  match products s !! id with
  | None => (Err 404 "Product not found", s)
  | Some _ =>
      let s := with_reviews (filter (λ kv, r_productId kv.2 ≠ id)) s in
      (Ok 200, with_products (delete id) s)
  end.

(** DELETE /admin/reviews/:id *)
Definition admin_delete_review (u : Caller) (id : nat) (s : Store) : Response * Store :=
  if negb (isAdmin u) then (Err 403 "Access denied. Admin role required.", s)
  else
  match reviews s !! id with
  | None => (Err 404 "Review not found", s)
  | Some review =>
      let s := with_reviews (delete id) s in
      let s := updateProductRatings (r_productId review) s in
      let s := updateSellerRatings (r_sellerId review) s in
      (Ok 200, s)
  end.

(** ** Requests and runs *)

Inductive Op :=
  | Purchase (id : nat)
  | ConfirmPurchase (id : nat)
  | CancelPurchase (id : nat)
  | DeleteProductRoute (id : nat)
  | DeleteProductController (id : nat)
  | CreateOrder (productId : nat) (shippingAddress : ShippingAddress) (notes : option string)
  | ShipOrder (id : nat) (trackingNumber : option string)
  | ConfirmDelivery (id : nat)
  | CancelOrder (id : nat)
  | CreateReview (productId : nat) (rating : Z) (comment : string) (reviewType : ReviewType)
  | UpdateReview (id : nat) (rating : option Z) (comment : option string)
  | DeleteReview (id : nat)
  | AdminDeleteUser (userId : nat)
  | AdminSetProductStatus (id : nat) (status : ProductStatus)
  | AdminDeleteProduct (id : nat)
  | AdminDeleteReview (id : nat).

(** One request: the authenticated caller and what is asked. *)
Definition Request : Type := Caller * Op.

Definition handle (rq : Request) (s : Store) : Response * Store :=
  let '(u, op) := rq in
  match op with
  | Purchase id => purchase u id s
  | ConfirmPurchase id => confirm_purchase u id s
  | CancelPurchase id => cancel_purchase u id s
  | DeleteProductRoute id => delete_product_route u id s
  | DeleteProductController id => deleteProduct u id s
  | CreateOrder productId a n => create_order u productId a n s
  | ShipOrder id t => ship_order u id t s
  | ConfirmDelivery id => confirm_delivery u id s
  | CancelOrder id => cancel_order u id s
  | CreateReview productId r c t => create_review u productId r c t s
  | UpdateReview id r c => update_review u id r c s
  | DeleteReview id => delete_review u id s
  | AdminDeleteUser userId => admin_delete_user u userId s
  | AdminSetProductStatus id st => admin_set_product_status u id st s
  | AdminDeleteProduct id => admin_delete_product u id s
  | AdminDeleteReview id => admin_delete_review u id s
  end.

(** The store after a sequence of requests, served one after the other. *)
Definition run (rqs : list Request) (s : Store) : Store :=
  fold_left (λ s rq, (handle rq s).2) rqs s.

(** The answers to a sequence of requests, in order. *)
Fixpoint responses (rqs : list Request) (s : Store) : list Response :=
  match rqs with
  | [] => []
  | rq :: rqs => (handle rq s).1 :: responses rqs (handle rq s).2
  end.

(** ** A sample marketplace *)

Definition seller1 : Caller := mkCaller 1 R_seller.
Definition buyer2 : Caller := mkCaller 2 R_buyer.
Definition buyer3 : Caller := mkCaller 3 R_buyer.
Definition admin9 : Caller := mkCaller 9 R_admin.

Definition home : ShippingAddress := mkAddress "1 Main St" "Ulaanbaatar" "UB" "14200".

(** Seller 1 has listed product 10 at price 100; nothing is ordered or
    reviewed yet. *)
Definition listed_store : Store :=
  mkStore {[ 1 := mkUser R_seller default_ratings;
             2 := mkUser R_buyer default_ratings;
             3 := mkUser R_buyer default_ratings;
             9 := mkUser R_admin default_ratings ]}
          {[ 10 := mkProduct 1 100%Q P_available None default_ratings ]}
          ∅ ∅.

(** ** Scenarios *)

(** Product 10 is pending for buyer 2. *)
Definition pending_store : Store := (purchase buyer2 10 listed_store).2.

(** Product 10 is sold to buyer 2 and not reviewed yet. *)
Definition sold_store : Store :=
  run [ (buyer2, Purchase 10); (buyer2, ConfirmPurchase 10) ] listed_store.

(** Buyer 2 has bought product 10 and rated it 4. *)
Definition reviewed_store : Store :=
  run [ (buyer2, Purchase 10);
        (buyer2, ConfirmPurchase 10);
        (buyer2, CreateReview 10 4 "good" RT_product) ] listed_store.

(** Buyer 2 creates, edits and deletes a review of product 10. *)
Definition review_session : list Request :=
  [ (buyer2, CreateReview 10 4 "good" RT_product);
    (buyer2, UpdateReview 0 (Some 2%Z) None);
    (buyer2, DeleteReview 0) ].

(** An order of buyer 2 on product 10 that has been shipped. *)
Definition shipped_order : Order :=
  mkOrder 10 2 1 100%Q O_shipped Pay_escrowed home None None.

Definition shipped_store : Store :=
  with_orders (insert 0 shipped_order)
    (with_products (alter (set_p_status P_pending) 10) listed_store).

(** Buyer 2 orders product 10; the seller cancels the pending purchase
    through the listing route; buyer 3 then purchases it.  Order 0 is
    still pending while the product is pending for buyer 3. *)
Definition reorder : list Request :=
  [ (buyer2, CreateOrder 10 home None);
    (seller1, CancelPurchase 10);
    (buyer3, Purchase 10) ].

Definition reordered_store : Store := run reorder listed_store.

(** Buyer 2 orders product 10, the seller cancels the pending purchase
    through the listing route, buyer 2 purchases, confirms and reviews the
    product; the seller then cancels the still pending order 0, which
    makes the product available again, and buyer 3 purchases it. *)
Definition resale : list Request :=
  [ (buyer2, CreateOrder 10 home None);
    (seller1, CancelPurchase 10);
    (buyer2, Purchase 10);
    (buyer2, ConfirmPurchase 10);
    (buyer2, CreateReview 10 4 "good" RT_product);
    (seller1, CancelOrder 0);
    (buyer3, Purchase 10) ].

Definition resold_store : Store := run resale listed_store.

(** ** Properties of the listing and order lifecycles *)

(** [buyerId] is non-null iff [status] is pending or sold. *)
Definition buyer_matches_status (p : Product) : Prop :=
  p_buyerId p ≠ None ↔ (p_status p = P_pending ∨ p_status p = P_sold).

Definition buyer_invariant (s : Store) : Prop :=
  ∀ id p, products s !! id = Some p → buyer_matches_status p.

(** What one request can do to the (status, paymentStatus) pair of a
    stored order. *)
Inductive escrow_step :
    OrderStatus * PaymentStatus → OrderStatus * PaymentStatus → Prop :=
  | es_stay st : escrow_step st st
  | es_ship ps : escrow_step (O_confirmed, ps) (O_shipped, ps)
  | es_confirm_delivery ps : escrow_step (O_shipped, ps) (O_completed, Pay_released)
  | es_cancel st ps :
      st ≠ O_completed → st ≠ O_cancelled →
      escrow_step (st, ps) (O_cancelled, Pay_refunded).

Definition escrow_state (o : Order) : OrderStatus * PaymentStatus :=
  (o_status o, o_paymentStatus o).

(** The statuses of an order that never got confirmed. *)
Definition unconfirmed (o : Order) : Prop :=
  o_status o = O_pending ∨ o_status o = O_cancelled.

(** Released only when completed, refunded only when cancelled. *)
Definition payment_consistent (o : Order) : Prop :=
  (o_paymentStatus o = Pay_released → o_status o = O_completed) ∧
  (o_paymentStatus o = Pay_refunded → o_status o = O_cancelled).

Definition orders_consistent (s : Store) : Prop :=
  ∀ id o, orders s !! id = Some o → payment_consistent o.

(** ** Properties of ratings and reviews *)

(** The aggregate as the specification words it: [count] is the number of
    ratings, [average] is their sum divided by the count when the count is
    positive, and 0 otherwise. *)
Definition mean (ratings : list Z) : Q :=
  let count := length ratings in
  let sum := foldr Z.add 0%Z ratings in
  if decide (0 < count) then (inject_Z sum / inject_Z (Z.of_nat count))%Q else 0%Q.

Definition aggregate (ratings : list Z) : Ratings :=
  mkRatings (mean ratings) (length ratings).

(** The ratings of the reviews of a collection whose [key] field is [k]:
    what [Review.find({productId: k})] or [Review.find({sellerId: k})]
    hands to the aggregator. *)
Definition ratings_by (key : Review → nat) (k : nat) (m : gmap nat Review) : list Z :=
  r_rating <$> (map_to_list (filter (λ kv, key kv.2 = k) m)).*2.

(** Every stored product and every stored user carries the aggregate of
    the reviews that name it as product, respectively as seller. *)
Definition ratings_consistent (s : Store) : Prop :=
  (∀ id p, products s !! id = Some p →
     p_ratings p = aggregate (ratings_by r_productId id (reviews s))) ∧
  (∀ id x, users s !! id = Some x →
     u_ratings x = aggregate (ratings_by r_sellerId id (reviews s))).

#[global] Instance Q_eq_dec : EqDecision Q.
Proof. solve_decision. Defined.
#[global] Instance Ratings_eq_dec : EqDecision Ratings.
Proof. solve_decision. Defined.

(** Consistency of a given store can be checked by running over it. *)
#[global] Instance ratings_consistent_dec (s : Store) : Decision (ratings_consistent s).
Proof. unfold ratings_consistent. apply and_dec; apply map_Forall_dec; apply _. Defined.

(** The requests of the review routes. *)
Definition review_request (rq : Request) : Prop :=
  match rq.2 with
  | CreateReview _ _ _ _ | UpdateReview _ _ _ | DeleteReview _ => True
  | _ => False
  end.

(** The answer of POST /api/reviews to a duplicate: the uniqueness
    conflict of the specification's error taxonomy. *)
Definition already_reviewed : Response :=
  Err 400 "You have already reviewed this product".

(** Some stored review is by [userId] on [productId]. *)
Definition reviewed_by (s : Store) (productId userId : nat) : Prop :=
  ∃ id r, reviews s !! id = Some r ∧ r_productId r = productId ∧ r_userId r = userId.

(** At most one review per (productId, userId) pair. *)
Definition one_review_per_pair (m : gmap nat Review) : Prop :=
  ∀ i j ri rj, m !! i = Some ri → m !! j = Some rj →
    r_productId ri = r_productId rj → r_userId ri = r_userId rj → i = j.

(** ** Further routes: user accounts (routes/users.js, routes/admin.js) *)

Definition set_u_role (r : Role) (x : User) : User :=
  mkUser r (u_ratings x).

(** PUT /admin/users/:id/role *)
Definition admin_set_user_role (u : Caller) (id : nat) (role : Role)
    (s : Store) : Response * Store :=
  if negb (isAdmin u) then (Err 403 "Access denied. Admin role required.", s)
  else
  match users s !! id with
  | None => (Err 404 "User not found", s)
  | Some _ => (Ok 200, with_users (alter (set_u_role role) id) s)
  end.

(** DELETE /api/users/:id of routes/users.js, behind [auth, isAdmin].
    Unlike the admin route it refuses the caller's own account and every
    admin account, and it also deletes the reviews naming the user as
    seller. *)
Definition delete_user_account (u : Caller) (userId : nat) (s : Store) : Response * Store :=
  if negb (isAdmin u) then (Err 403 "Access denied. Admin role required.", s)
  else
  match users s !! userId with
  | None => (Err 404 "User not found", s)
  | Some user =>
      if decide (userId = c_id u) then
        (Err 400 "Cannot delete your own account", s)
      else if decide (u_role user = R_admin) then
        (Err 403 "Cannot delete admin users", s)
      else
        (Ok 200,
         mkStore (delete userId (users s))
                 (filter (λ kv, p_sellerId kv.2 ≠ userId) (products s))
                 (orders s)
                 (filter (λ kv, r_sellerId kv.2 ≠ userId)
                    (filter (λ kv, r_userId kv.2 ≠ userId) (reviews s))))
  end.

(** Requests to the two account routes that [handle] does not dispatch,
    and the service of a request to any modelled store route. *)
Inductive AccountOp :=
  | SetUserRole (id : nat) (role : Role)
  | DeleteUserAccount (userId : nat).

Inductive AnyOp :=
  | Dispatched (op : Op)
  | Account (op : AccountOp).

Definition serve (rq : Caller * AnyOp) (s : Store) : Response * Store :=
  match rq.2 with
  | Dispatched op => handle (rq.1, op) s
  | Account (SetUserRole id role) => admin_set_user_role rq.1 id role s
  | Account (DeleteUserAccount userId) => delete_user_account rq.1 userId s
  end.

Definition serve_all (rqs : list (Caller * AnyOp)) (s : Store) : Store :=
  fold_left (λ s rq, (serve rq s).2) rqs s.

(** ** Notification service (utils/notifications.js) *)

(** A notification of the in-memory array.  [id] is the decimal rendering
    of the clock at creation and is modelled by that number; [createdAt]
    is a second reading of the clock, in milliseconds. *)
Record Notification := mkNotification {
  n_id : nat;
  n_userId : nat;
  n_message : string;
  n_type : string;
  n_read : bool;
  n_createdAt : nat
}.

#[global] Instance Notification_eq_dec : EqDecision Notification.
Proof. solve_decision. Defined.

Definition set_n_read (b : bool) (n : Notification) : Notification :=
  mkNotification (n_id n) (n_userId n) (n_message n) (n_type n) b (n_createdAt n).

(** [notifications.indexOf(notif)]: the first position holding [notif].
    The source compares objects by identity; the notifications it looks
    up are the user's first ones in array order, for which the first
    equal element is the element itself. *)
Fixpoint indexOf (notif : Notification) (notifications : list Notification) : option nat :=
  match notifications with
  | [] => None
  | n :: rest => if decide (n = notif) then Some 0 else S <$> indexOf notif rest
  end.

(** The body of [toRemove.forEach]: splice the notification out when it
    is found. *)
Definition splice_out (notifications : list Notification) (notif : Notification)
    : list Notification :=
  match indexOf notif notifications with
  | Some index => delete index notifications
  | None => notifications
  end.

(** [NotificationService.addNotification(userId, message, type)]; [now]
    and [createdAt] are the two readings of the clock.  Returns the new
    notification and the array after the call. *)
Definition addNotification (userId : nat) (message type : string) (now createdAt : nat)
    (notifications : list Notification) : Notification * list Notification :=
  let notification := mkNotification now userId message type false createdAt in
  let notifications := (notifications ++ [notification])%list in
  let userNotifications := filter (λ n, n_userId n = userId) notifications in
  if decide (100 < length userNotifications) then
    let toRemove := take (length userNotifications - 100) userNotifications in
    (notification, fold_left splice_out toRemove notifications)
  else (notification, notifications).

(** The [sort] of [getUserNotifications]: newest first.  The comparator
    is [b.createdAt - a.createdAt] and the sort is stable, which insertion
    from the right reproduces. *)
Fixpoint insert_newest_first (n : Notification) (sorted : list Notification)
    : list Notification :=
  match sorted with
  | [] => [n]
  | m :: rest =>
      if decide (n_createdAt n < n_createdAt m) then m :: insert_newest_first n rest
      else n :: m :: rest
  end.

Definition sort_newest_first (l : list Notification) : list Notification :=
  foldr insert_newest_first [] l.

(** [NotificationService.getUserNotifications(userId, unreadOnly)] *)
Definition getUserNotifications (userId : nat) (unreadOnly : bool)
    (notifications : list Notification) : list Notification :=
  let userNotifications := filter (λ n, n_userId n = userId) notifications in
  let userNotifications :=
    if unreadOnly then filter (λ n, n_read n = false) userNotifications
    else userNotifications in
  sort_newest_first userNotifications.

(** [NotificationService.markAsRead(userId, notificationId)]: the first
    notification with that id and user is marked in place. *)
Definition markAsRead (userId notificationId : nat) (notifications : list Notification)
    : bool * list Notification :=
  match list_find (λ n, n_id n = notificationId ∧ n_userId n = userId) notifications with
  | Some (i, notification) => (true, <[i := set_n_read true notification]> notifications)
  | None => (false, notifications)
  end.

(** [NotificationService.markAllAsRead(userId)] *)
Definition markAllAsRead (userId : nat) (notifications : list Notification)
    : list Notification :=
  (λ n, if decide (n_userId n = userId) then set_n_read true n else n) <$> notifications.

(** The notification routes (routes/notifications.js). *)

(** GET /notifications: [unreadOnly] is the raw query parameter. *)
Definition get_notifications (u : Caller) (unreadOnly : option string)
    (notifications : list Notification) : list Notification :=
  getUserNotifications (c_id u) (bool_decide (unreadOnly = Some "true")) notifications.

(** PUT /notifications/:id/read *)
Definition put_notification_read (u : Caller) (id : nat)
    (notifications : list Notification) : Response * list Notification :=
  let '(success, notifications) := markAsRead (c_id u) id notifications in
  if success then (Ok 200, notifications)
  else (Err 404 "Notification not found", notifications).

(** PUT /notifications/mark-all-read *)
Definition put_mark_all_read (u : Caller) (notifications : list Notification)
    : Response * list Notification :=
  (Ok 200, markAllAsRead (c_id u) notifications).

(** One call of the service that changes the array. *)
Inductive NotificationCall :=
  | Add (userId : nat) (message type : string) (now createdAt : nat)
  | MarkAsRead (userId notificationId : nat)
  | MarkAllAsRead (userId : nat).

Definition call (c : NotificationCall) (notifications : list Notification)
    : list Notification :=
  match c with
  | Add userId message type now createdAt =>
      (addNotification userId message type now createdAt notifications).2
  | MarkAsRead userId notificationId => (markAsRead userId notificationId notifications).2
  | MarkAllAsRead userId => markAllAsRead userId notifications
  end.

(** The [k] oldest notifications of a user taken out of the array. *)
Fixpoint evict (k : nat) (userId : nat) (notifications : list Notification)
    : list Notification :=
  match k, notifications with
  | 0, _ => notifications
  | _, [] => []
  | S k', n :: rest =>
      if decide (n_userId n = userId) then evict k' userId rest
      else n :: evict k userId rest
  end.

(** [a] may come before [b] in a newest-first listing: [b] was created
    no later than [a]. *)
Definition no_older_than (a b : Notification) : Prop :=
  (n_createdAt b ≤ n_createdAt a)%nat.

(** How many notifications of a user the array holds. *)
Definition count_for (userId : nat) (notifications : list Notification) : nat :=
  length (filter (λ n, n_userId n = userId) notifications).

(** ** Listings: pagination and the profile statistics *)

(** One page of a listing route: [.skip((page - 1) * limit).limit(limit)]
    applied to the sorted query result, for [page] and [limit] at least 1. *)
Definition page_of {A} (page limit : nat) (results : list A) : list A :=
  take limit (drop ((page - 1) * limit) results).

(** [pagination.pages]: [Math.ceil(total / Number(limit))]. *)
Definition pages (total limit : nat) : Z :=
  Qceiling (inject_Z (Z.of_nat total) / inject_Z (Z.of_nat limit)).

(** The [stats] object of GET /api/users/:id: four [countDocuments] and
    [user.ratings?.average || 0]. *)
Record UserStats := mkUserStats {
  totalProducts : nat;
  soldProducts : nat;
  pendingProducts : nat;
  totalReviews : nat;
  shownAverageRating : Q
}.

Definition user_stats (id : nat) (user : User) (s : Store) : UserStats :=
  mkUserStats
    (size (filter (λ kv, p_sellerId kv.2 = id) (products s)))
    (size (filter (λ kv, p_sellerId kv.2 = id ∧ p_status kv.2 = P_sold) (products s)))
    (size (filter (λ kv, p_sellerId kv.2 = id ∧ p_status kv.2 = P_pending) (products s)))
    (size (filter (λ kv, r_sellerId kv.2 = id) (reviews s)))
    (average (u_ratings user)).

(** ** Further scenarios *)

(** An order of buyer 2 on product 10 that the seller may ship. *)
Definition confirmed_order : Order :=
  mkOrder 10 2 1 100%Q O_confirmed Pay_escrowed home None None.

Definition confirmed_store : Store :=
  with_orders (insert 0 confirmed_order)
    (with_products (alter (set_p_status P_pending) 10) listed_store).

(** Order 0 of buyer 2 on product 10, cancelled by the seller. *)
Definition cancelled_store : Store :=
  run [ (buyer2, CreateOrder 10 home None); (seller1, CancelOrder 0) ] listed_store.

(** ** Properties used below *)

(** Every stored review carries a rating the validators accept. *)
Definition ratings_in_range (s : Store) : Prop :=
  ∀ id r, reviews s !! id = Some r → (1 ≤ r_rating r ≤ 5)%Z.

(** An aggregate the validators allow: nothing counted and average 0, or
    something counted and an average from 1 to 5. *)
Definition rating_in_range (r : Ratings) : Prop :=
  (count r = 0 ∧ average r = 0%Q) ∨ (0 < count r ∧ (1 <= average r <= 5)%Q).

(** The fourteen routes, of the sixteen [handle] dispatches, that either
    leave reviews and ratings alone or recompute after changing a review.
    The two left out, DELETE /admin/users/:id and DELETE
    /admin/products/:id, remove reviews without recomputing; so does
    DELETE /api/users/:id ([delete_user_account]), which [handle] does
    not dispatch. *)
Definition recomputing_request (rq : Request) : Prop :=
  match rq.2 with
  | Purchase _ | ConfirmPurchase _ | CancelPurchase _
  | DeleteProductRoute _ | DeleteProductController _
  | CreateOrder _ _ _ | ShipOrder _ _ | ConfirmDelivery _ | CancelOrder _
  | CreateReview _ _ _ _ | UpdateReview _ _ _ | DeleteReview _
  | AdminSetProductStatus _ _ | AdminDeleteReview _ => True
  | AdminDeleteUser _ | AdminDeleteProduct _ => False
  end.

(** The terms of an order fixed at creation: product, parties, amount,
    address and notes. *)
Definition same_order_terms (o o' : Order) : Prop :=
  o_productId o' = o_productId o ∧ o_buyerId o' = o_buyerId o ∧
  o_sellerId o' = o_sellerId o ∧ o_amount o' = o_amount o ∧
  o_shippingAddress o' = o_shippingAddress o ∧ o_notes o' = o_notes o.

(** The requests of the three listing routes. *)
Definition listing_request (rq : Request) : Prop :=
  match rq.2 with
  | Purchase _ | ConfirmPurchase _ | CancelPurchase _ => True
  | _ => False
  end.

(** ** Proof support *)

(** Opens the handlers and splits on every guard the request meets. *)
Ltac unfold_handlers :=
  unfold purchase, confirm_purchase, cancel_purchase, delete_product_route,
    deleteProduct, create_order, ship_order, confirm_delivery, cancel_order,
    create_review, update_review, delete_review, admin_delete_user,
    admin_set_product_status, admin_delete_product, admin_delete_review.

Ltac handler_cases :=
  repeat (first [ case_decide | case_bool_decide | case_match ]); simpl.

(** ** Listing lifecycle: purchase *)

(** C6.  For a stored product, purchase succeeds exactly when the product
    is available and the caller is not its seller, and then stores the
    product with status pending and buyerId the caller.  It answers 400
    'Product is not available for purchase' (the state conflict) whenever
    the status is not available, and 400 'You cannot purchase your own
    product' (the invalid operation) when an available product is asked
    for by its own seller; a seller's purchase of their own product never
    succeeds.  Every failure leaves the store as it was. *)
Theorem purchase_spec (u : Caller) (id : nat) (s : Store) (product : Product) :
  products s !! id = Some product →
  (succeeded (purchase u id s).1 = true ↔
     p_status product = P_available ∧ c_id u ≠ p_sellerId product) ∧
  (succeeded (purchase u id s).1 = true →
     (purchase u id s).2 =
       with_products
         (insert id (mkProduct (p_sellerId product) (p_price product) P_pending
                               (Some (c_id u)) (p_ratings product))) s) ∧
  (p_status product ≠ P_available →
     (purchase u id s).1 = Err 400 "Product is not available for purchase") ∧
  (c_id u = p_sellerId product →
     succeeded (purchase u id s).1 = false ∧
     (p_status product = P_available →
        (purchase u id s).1 = Err 400 "You cannot purchase your own product")) ∧
  (succeeded (purchase u id s).1 = false → (purchase u id s).2 = s).
Proof.
  intros Hp. unfold purchase. rewrite Hp.
  repeat case_decide; simpl; intuition (try congruence; try discriminate).
Qed.

Lemma purchase_spec_witness :
  products listed_store !! 10 = Some (mkProduct 1 100%Q P_available None default_ratings) ∧
  succeeded (purchase buyer2 10 listed_store).1 = true ∧
  succeeded (purchase seller1 10 listed_store).1 = false.
Proof.
  split; [reflexivity|].
  split.
  - apply (purchase_spec buyer2 10 listed_store
             (mkProduct 1 100%Q P_available None default_ratings)); [reflexivity|].
    split; [reflexivity | vm_compute; lia].
  - apply (purchase_spec seller1 10 listed_store
             (mkProduct 1 100%Q P_available None default_ratings)); reflexivity.
Defined.

(** ** Order lifecycle: confirm-delivery and cancel *)

(** C3.  For a stored order, confirm-delivery succeeds exactly when the
    caller is the order's buyer and the order is shipped.  On success the
    order is stored as completed with payment released and the linked
    product (when it is still stored) has status sold, all in the same
    resulting store; on failure the store is left as it was. *)
Theorem confirm_delivery_spec (u : Caller) (id : nat) (s : Store) (order : Order) :
  orders s !! id = Some order →
  (succeeded (confirm_delivery u id s).1 = true ↔
     c_id u = o_buyerId order ∧ o_status order = O_shipped) ∧
  (succeeded (confirm_delivery u id s).1 = true →
     orders (confirm_delivery u id s).2 !! id =
       Some (mkOrder (o_productId order) (o_buyerId order) (o_sellerId order)
                     (o_amount order) O_completed Pay_released
                     (o_shippingAddress order) (o_trackingNumber order) (o_notes order)) ∧
     ∀ product, products s !! o_productId order = Some product →
       products (confirm_delivery u id s).2 !! o_productId order =
         Some (mkProduct (p_sellerId product) (p_price product) P_sold
                         (p_buyerId product) (p_ratings product))) ∧
  (succeeded (confirm_delivery u id s).1 = false → (confirm_delivery u id s).2 = s).
Proof.
  intros Ho. unfold confirm_delivery. rewrite Ho.
  repeat case_decide; simpl;
    (split; [intuition (try congruence; try discriminate)|]);
    (split; [|intuition (try congruence; try discriminate)]);
    intros Hok; try discriminate.
  split; [by rewrite lookup_insert_eq|].
  intros product Hp. rewrite lookup_alter_eq, Hp. reflexivity.
Qed.

Lemma confirm_delivery_spec_witness :
  orders shipped_store !! 0 = Some shipped_order ∧
  (succeeded (confirm_delivery buyer2 0 shipped_store).1 = true ↔
     c_id buyer2 = o_buyerId shipped_order ∧ o_status shipped_order = O_shipped).
Proof.
  split; [reflexivity|].
  apply (confirm_delivery_spec buyer2 0 shipped_store shipped_order). reflexivity.
Defined.

(** What cancel does on a stored order: it succeeds exactly for the
    order's buyer or seller on an order neither completed nor cancelled;
    it then stores the order as cancelled and refunded and sets the
    linked product's status to available, touching no other field of the
    product. *)
Lemma cancel_order_effect (u : Caller) (id : nat) (s : Store) (order : Order) :
  orders s !! id = Some order →
  (succeeded (cancel_order u id s).1 = true ↔
     (c_id u = o_buyerId order ∨ c_id u = o_sellerId order) ∧
     o_status order ≠ O_completed ∧ o_status order ≠ O_cancelled) ∧
  (succeeded (cancel_order u id s).1 = true →
     orders (cancel_order u id s).2 !! id =
       Some (mkOrder (o_productId order) (o_buyerId order) (o_sellerId order)
                     (o_amount order) O_cancelled Pay_refunded
                     (o_shippingAddress order) (o_trackingNumber order) (o_notes order)) ∧
     ∀ product, products s !! o_productId order = Some product →
       products (cancel_order u id s).2 !! o_productId order =
         Some (mkProduct (p_sellerId product) (p_price product) P_available
                         (p_buyerId product) (p_ratings product))) ∧
  (succeeded (cancel_order u id s).1 = false → (cancel_order u id s).2 = s).
Proof.
  intros Ho. unfold cancel_order. rewrite Ho.
  assert (Hin : o_status order ∈ [O_completed; O_cancelled] ↔
                ¬ (o_status order ≠ O_completed ∧ o_status order ≠ O_cancelled)).
  { rewrite !elem_of_cons, elem_of_nil.
    destruct (o_status order); intuition congruence. }
  repeat case_bool_decide; simpl;
    (split; [intuition (try congruence; try discriminate)|]);
    (split; [|intuition (try congruence; try discriminate)]);
    intros Hok; try discriminate;
    (split; [by rewrite lookup_insert_eq|]);
    intros product Hp; rewrite lookup_alter_eq, Hp; reflexivity.
Qed.

(** ** The buyer invariant of a product *)

(** The three listing routes keep the invariant: purchase sets the buyer
    together with pending, confirm-purchase goes from pending to sold with
    the buyer in place, cancel-purchase clears the buyer together with the
    return to available. *)
Lemma listing_routes_keep_buyer_invariant (u : Caller) (id : nat) (s : Store) :
  buyer_invariant s →
  buyer_invariant (purchase u id s).2 ∧
  buyer_invariant (confirm_purchase u id s).2 ∧
  buyer_invariant (cancel_purchase u id s).2.
Proof.
  intros Hinv. unfold purchase, confirm_purchase, cancel_purchase.
  destruct (products s !! id) as [product|] eqn:Hp; [|done].
  pose proof (Hinv _ _ Hp) as Hprod.
  (split; [|split]); repeat case_decide; repeat case_bool_decide; simpl; try done;
    intros id' p'; simpl; rewrite lookup_insert; case_decide;
    try (by apply Hinv); intros [= <-];
    unfold buyer_matches_status in *; simpl; intuition congruence.
Qed.

(** What POST /orders does when it succeeds: the product was available,
    the new order is pending with the payment escrowed, and of the product
    only the status changes; its buyerId stays what it was. *)
Lemma create_order_effect (u : Caller) (productId : nat) (a : ShippingAddress)
    (n : option string) (s : Store) (p : Product) :
  products s !! productId = Some p →
  succeeded (create_order u productId a n s).1 = true →
  p_status p = P_available ∧
  orders (create_order u productId a n s).2 !! new_id (orders s) =
    Some (mkOrder productId (c_id u) (p_sellerId p) (p_price p)
                  O_pending Pay_escrowed a None n) ∧
  products (create_order u productId a n s).2 !! productId =
    Some (mkProduct (p_sellerId p) (p_price p) P_pending (p_buyerId p) (p_ratings p)).
Proof.
  intros Hp. unfold create_order. rewrite Hp.
  handler_cases; try discriminate. intros _.
  split; [done|]. split; [by rewrite lookup_insert_eq|].
  by rewrite lookup_alter_eq, Hp.
Qed.

(** So every successful POST /orders on a product that met the buyer
    invariant leaves it pending without a buyer. *)
Lemma create_order_drops_buyer_invariant (u : Caller) (productId : nat)
    (a : ShippingAddress) (n : option string) (s : Store) (p : Product) :
  products s !! productId = Some p →
  buyer_matches_status p →
  succeeded (create_order u productId a n s).1 = true →
  ∃ p', products (create_order u productId a n s).2 !! productId = Some p' ∧
        p_status p' = P_pending ∧ p_buyerId p' = None ∧ ¬ buyer_matches_status p'.
Proof.
  intros Hp Hinv Hok.
  destruct (create_order_effect u productId a n s p Hp Hok) as (Hav & _ & Hp').
  assert (Hb : p_buyerId p = None).
  { destruct (p_buyerId p) eqn:Hb; [|done].
    destruct Hinv as [Hinv _]. destruct Hinv as [|]; congruence. }
  eexists. split; [exact Hp'|]. simpl. rewrite Hb.
  repeat split. unfold buyer_matches_status; simpl.
  intros [_ Hback]. apply Hback; [by left | done].
Qed.

(** C1.  The invariant holds of the listed product before the order is
    placed; POST /orders by buyer 2 succeeds and leaves the product
    pending with a null buyerId, so the invariant is broken after an
    operation of the system.  (The purchase route, from the same state,
    stores pending together with the buyer.) *)
Theorem create_order_breaks_buyer_invariant :
  buyer_invariant listed_store ∧
  (create_order buyer2 10 home None listed_store).1 = Ok 201 ∧
  products (create_order buyer2 10 home None listed_store).2 !! 10 =
    Some (mkProduct 1 100%Q P_pending None default_ratings) ∧
  ¬ buyer_matches_status (mkProduct 1 100%Q P_pending None default_ratings) ∧
  products (purchase buyer2 10 listed_store).2 !! 10 =
    Some (mkProduct 1 100%Q P_pending (Some 2) default_ratings).
Proof.
  split.
  { intros id p Hp. simpl in Hp. apply lookup_singleton_Some in Hp as [<- <-].
    unfold buyer_matches_status; simpl. split; [done | intros [|]; discriminate]. }
  repeat split; try reflexivity.
  unfold buyer_matches_status; simpl. intros [_ H]. apply H; [by left | reflexivity].
Qed.

(** C4.  The three requests of [reorder] all succeed.  On the pending
    order 0 of the store they reach, cancel by the order's buyer succeeds, stores the order as cancelled and refunded and
    the product as available, but the product keeps buyerId 3: the buyer
    is not cleared.  (cancel-purchase, from the same state, clears it.) *)
Theorem cancel_order_keeps_buyerId :
  responses reorder listed_store = [Ok 201; Ok 200; Ok 200] ∧
  orders reordered_store !! 0 =
    Some (mkOrder 10 2 1 100%Q O_pending Pay_escrowed home None None) ∧
  products reordered_store !! 10 =
    Some (mkProduct 1 100%Q P_pending (Some 3) default_ratings) ∧
  (cancel_order buyer2 0 reordered_store).1 = Ok 200 ∧
  orders (cancel_order buyer2 0 reordered_store).2 !! 0 =
    Some (mkOrder 10 2 1 100%Q O_cancelled Pay_refunded home None None) ∧
  products (cancel_order buyer2 0 reordered_store).2 !! 10 =
    Some (mkProduct 1 100%Q P_available (Some 3) default_ratings) ∧
  products (cancel_purchase seller1 10 reordered_store).2 !! 10 =
    Some (mkProduct 1 100%Q P_available None default_ratings).
Proof. repeat split; vm_compute; reflexivity. Qed.

(** ** Product deletion *)

(** The route refuses to delete a sold or a pending product and leaves
    the store as it was. *)
Lemma delete_product_route_guard (u : Caller) (id : nat) (s : Store) (product : Product) :
  products s !! id = Some product →
  p_status product = P_sold ∨ p_status product = P_pending →
  succeeded (delete_product_route u id s).1 = false ∧
  (delete_product_route u id s).2 = s.
Proof.
  intros Hp Hst. unfold delete_product_route. rewrite Hp.
  destruct (isSeller u); simpl; [|done].
  repeat case_decide; repeat case_bool_decide; simpl; try done;
    destruct Hst; congruence.
Qed.

(** The controller deletes whatever product its seller asks for. *)
Lemma deleteProduct_any_status (u : Caller) (id : nat) (s : Store) (product : Product) :
  products s !! id = Some product →
  p_sellerId product = c_id u →
  deleteProduct u id s = (Ok 200, with_products (delete id) s).
Proof.
  intros Hp Hs. unfold deleteProduct. rewrite Hp. by case_decide.
Qed.

(** C9.  Product 10 is pending.  Its seller's deletion through the
    controller's [deleteProduct] succeeds and removes the product, while
    the DELETE route on the same request answers 400 'Cannot delete a sold
    or pending product' and keeps the store. *)
Theorem deleteProduct_deletes_pending_product :
  products pending_store !! 10 =
    Some (mkProduct 1 100%Q P_pending (Some 2) default_ratings) ∧
  (deleteProduct seller1 10 pending_store).1 = Ok 200 ∧
  products (deleteProduct seller1 10 pending_store).2 !! 10 = None ∧
  delete_product_route seller1 10 pending_store =
    (Err 400 "Cannot delete a sold or pending product", pending_store).
Proof. repeat split; vm_compute; reflexivity. Qed.

(** ** The escrow state machine *)

Lemma new_id_fresh {A} (m : gmap nat A) : m !! new_id m = None.
Proof. apply not_elem_of_dom. unfold new_id. apply is_fresh. Qed.

Lemma new_id_ne {A} (m : gmap nat A) (id : nat) (x : A) :
  m !! id = Some x → new_id m ≠ id.
Proof. intros H <-. rewrite new_id_fresh in H. discriminate. Qed.

(** No request removes an order, and a stored order only moves along
    [escrow_step]. *)
Lemma handle_order_step (rq : Request) (s : Store) (id : nat) (o : Order) :
  orders s !! id = Some o →
  ∃ o', orders (handle rq s).2 !! id = Some o' ∧
        escrow_step (escrow_state o) (escrow_state o').
Proof.
  intros Ho. destruct rq as [u op].
  assert (Hstay : ∃ o', orders s !! id = Some o' ∧
                        escrow_step (escrow_state o) (escrow_state o'))
    by (exists o; split; [done | constructor]).
  destruct op; simpl; unfold_handlers; handler_cases; try done.
  (* create: the new order takes a fresh id *)
  1: (rewrite lookup_insert_ne by (by eapply new_id_ne); done).
  all: destruct (decide (id0 = id)) as [->|Hne]; [|by rewrite lookup_insert_ne].
  all: rewrite lookup_insert_eq; eexists; (split; [done|]).
  all: simplify_eq; unfold escrow_state; simpl.
  all: try match goal with H : o_status _ = _ |- _ => rewrite H; by constructor end.
  all: match goal with H : o_status _ ∉ _ |- _ =>
         rewrite !elem_of_cons, elem_of_nil in H end.
  all: constructor; tauto.
Qed.

(** An order that appears with a request is the one POST /orders made:
    pending, with the payment in escrow. *)
Lemma handle_order_new (rq : Request) (s : Store) (id : nat) (o' : Order) :
  orders s !! id = None →
  orders (handle rq s).2 !! id = Some o' →
  escrow_state o' = (O_pending, Pay_escrowed).
Proof.
  intros Hnone. destruct rq as [u op].
  destruct op; simpl; unfold_handlers; handler_cases;
    try congruence.
  all: rewrite lookup_insert; case_decide; try congruence.
  by intros [= <-].
Qed.

Lemma run_snoc (rqs : list Request) (rq : Request) (s : Store) :
  run (rqs ++ [rq]) s = (handle rq (run rqs s)).2.
Proof. unfold run. by rewrite fold_left_app. Qed.

(** *** Orders stuck before confirmation *)

Lemma escrow_step_unconfirmed (o o' : Order) :
  unconfirmed o → escrow_step (escrow_state o) (escrow_state o') → unconfirmed o'.
Proof.
  unfold unconfirmed, escrow_state. intros Hu Hstep.
  inversion Hstep; subst; try (destruct Hu; congruence).
  - destruct Hu; [left | right]; congruence.
  - by right.
Qed.

Lemma run_keeps_unconfirmed (rqs : list Request) (s : Store) (id : nat) (o : Order) :
  orders s !! id = Some o → unconfirmed o →
  ∃ o', orders (run rqs s) !! id = Some o' ∧ unconfirmed o'.
Proof.
  intros Ho Hu. induction rqs as [|rq rqs IH] using rev_ind.
  - by exists o.
  - destruct IH as (o1 & Ho1 & Hu1). rewrite run_snoc.
    destruct (handle_order_step rq _ _ _ Ho1) as (o2 & Ho2 & Hstep).
    exists o2. split; [done|]. by eapply escrow_step_unconfirmed.
Qed.

(** Ship is refused on an order that is not confirmed. *)
Lemma ship_order_needs_confirmed (u : Caller) (id : nat) (t : option string)
    (s : Store) (o : Order) :
  orders s !! id = Some o → o_status o ≠ O_confirmed →
  succeeded (ship_order u id t s).1 = false ∧ (ship_order u id t s).2 = s.
Proof.
  intros Ho Hst. unfold ship_order. rewrite Ho. by repeat case_decide.
Qed.

(** C5.  Once POST /orders has succeeded, whatever requests follow (ship,
    confirm-delivery and cancel among them, from any caller), the created
    order stays stored with status pending or cancelled: it is never
    confirmed, shipped or completed, and ship on it is refused in every
    store reached. *)
Theorem created_order_never_confirmed (u : Caller) (productId : nat)
    (a : ShippingAddress) (n : option string) (s : Store) (rqs : list Request) :
  succeeded (create_order u productId a n s).1 = true →
  ∃ o, orders (run rqs (create_order u productId a n s).2) !! new_id (orders s) = Some o ∧
       (o_status o = O_pending ∨ o_status o = O_cancelled) ∧
       o_status o ≠ O_confirmed ∧ o_status o ≠ O_shipped ∧ o_status o ≠ O_completed ∧
       ∀ u' t,
         succeeded (ship_order u' (new_id (orders s)) t
                      (run rqs (create_order u productId a n s).2)).1 = false.
Proof.
  intros Hok.
  assert (Hnew : ∃ o, orders (create_order u productId a n s).2 !! new_id (orders s) = Some o
                      ∧ unconfirmed o).
  { revert Hok. unfold create_order.
    repeat (first [ case_decide | case_match ]); simpl; try discriminate.
    intros _. rewrite lookup_insert_eq. eexists; split; [done | by left]. }
  destruct Hnew as (o0 & Ho0 & Hu0).
  destruct (run_keeps_unconfirmed rqs _ _ _ Ho0 Hu0) as (o & Ho & Hu).
  exists o. split; [done|]. split; [done|].
  assert (Hnc : o_status o ≠ O_confirmed) by (destruct Hu; congruence).
  repeat split; try (destruct Hu; congruence).
  intros u' t. by eapply ship_order_needs_confirmed.
Qed.

Lemma created_order_never_confirmed_witness :
  succeeded (create_order buyer2 10 home None listed_store).1 = true ∧
  ∃ o, orders (run [ (seller1, ShipOrder 0 (Some "TRK1"));
                     (buyer2, ConfirmDelivery 0);
                     (seller1, CancelOrder 0);
                     (seller1, ShipOrder 0 None) ]
                   (create_order buyer2 10 home None listed_store).2)
         !! new_id (orders listed_store) = Some o ∧
       (o_status o = O_pending ∨ o_status o = O_cancelled) ∧
       o_status o ≠ O_confirmed ∧ o_status o ≠ O_shipped ∧ o_status o ≠ O_completed ∧
       ∀ u' t,
         succeeded (ship_order u' (new_id (orders listed_store)) t
                      (run [ (seller1, ShipOrder 0 (Some "TRK1"));
                             (buyer2, ConfirmDelivery 0);
                             (seller1, CancelOrder 0);
                             (seller1, ShipOrder 0 None) ]
                           (create_order buyer2 10 home None listed_store).2)).1 = false.
Proof.
  split; [reflexivity|].
  apply (created_order_never_confirmed buyer2 10 home None listed_store). reflexivity.
Defined.

(** *** Payment status follows order status *)

Lemma escrow_step_consistent (o o' : Order) :
  payment_consistent o → escrow_step (escrow_state o) (escrow_state o') →
  payment_consistent o'.
Proof.
  unfold payment_consistent, escrow_state. intros [Hrel Href] Hstep.
  inversion Hstep; subst; split; intros; try congruence.
  - apply Hrel; congruence.
  - apply Href; congruence.
  - assert (o_status o = O_completed) by (apply Hrel; congruence). congruence.
  - assert (o_status o = O_cancelled) by (apply Href; congruence). congruence.
Qed.

Lemma handle_keeps_orders_consistent (rq : Request) (s : Store) :
  orders_consistent s → orders_consistent (handle rq s).2.
Proof.
  intros Hinv id o' Ho'.
  destruct (orders s !! id) as [o|] eqn:Ho.
  - destruct (handle_order_step rq _ _ _ Ho) as (o2 & Ho2 & Hstep).
    assert (o2 = o') as -> by congruence.
    eapply escrow_step_consistent; [by eapply Hinv | done].
  - pose proof (handle_order_new rq _ _ _ Ho Ho') as Hnew.
    unfold escrow_state in Hnew. injection Hnew as Hst Hpay.
    split; congruence.
Qed.

Lemma run_keeps_orders_consistent (rqs : list Request) (s : Store) :
  orders_consistent s → orders_consistent (run rqs s).
Proof.
  intros Hinv. induction rqs as [|rq rqs IH] using rev_ind; [done|].
  rewrite run_snoc. by apply handle_keeps_orders_consistent.
Qed.

(** C7.  Start from a store without orders and serve any sequence of
    requests (create, ship, confirm-delivery and cancel among them): in
    every order then stored, payment released implies status completed and
    payment refunded implies status cancelled. *)
Theorem reachable_orders_payment_consistent (s : Store) (rqs : list Request)
    (id : nat) (o : Order) :
  orders s = ∅ →
  orders (run rqs s) !! id = Some o →
  (o_paymentStatus o = Pay_released → o_status o = O_completed) ∧
  (o_paymentStatus o = Pay_refunded → o_status o = O_cancelled).
Proof.
  intros Hempty Ho.
  eapply (run_keeps_orders_consistent rqs s); [|done].
  intros id' o' Ho'. rewrite Hempty, lookup_empty in Ho'. discriminate.
Qed.

Lemma reachable_orders_payment_consistent_witness :
  orders listed_store = ∅ ∧
  orders (run [ (buyer2, CreateOrder 10 home None); (seller1, CancelOrder 0) ]
              listed_store) !! 0
    = Some (mkOrder 10 2 1 100%Q O_cancelled Pay_refunded home None None) ∧
  ((Pay_refunded = Pay_released → O_cancelled = O_completed) ∧
   (Pay_refunded = Pay_refunded → O_cancelled = O_cancelled)).
Proof.
  split; [reflexivity|]. split; [reflexivity|].
  apply (reachable_orders_payment_consistent listed_store
           [ (buyer2, CreateOrder 10 home None); (seller1, CancelOrder 0) ] 0
           (mkOrder 10 2 1 100%Q O_cancelled Pay_refunded home None None));
    reflexivity.
Defined.

(** ** Admin user deletion *)

(** C10.  DELETE /admin/users/:id, when it succeeds, removes the user,
    every product the user sells and every review the user wrote.  On
    every outcome, each product and each user still stored afterwards is
    the document stored before, so its ratings average and count are the
    same: nothing is recomputed.  This also holds when counted reviews go:
    after the admin deletes buyer 2 from [reviewed_store], product 10 and
    seller 1 still show average 4 and count 1 although no review is left. *)
Theorem admin_delete_user_keeps_ratings (u : Caller) (userId : nat) (s : Store) :
  (succeeded (admin_delete_user u userId s).1 = true →
     users (admin_delete_user u userId s).2 !! userId = None ∧
     (∀ id p, products s !! id = Some p →
        products (admin_delete_user u userId s).2 !! id =
          if decide (p_sellerId p = userId) then None else Some p) ∧
     (∀ id r, reviews s !! id = Some r →
        reviews (admin_delete_user u userId s).2 !! id =
          if decide (r_userId r = userId) then None else Some r)) ∧
  (∀ id p', products (admin_delete_user u userId s).2 !! id = Some p' →
     ∃ p, products s !! id = Some p ∧
          average (p_ratings p') = average (p_ratings p) ∧
          count (p_ratings p') = count (p_ratings p)) ∧
  (∀ id x', users (admin_delete_user u userId s).2 !! id = Some x' →
     ∃ x, users s !! id = Some x ∧
          average (u_ratings x') = average (u_ratings x) ∧
          count (u_ratings x') = count (u_ratings x)) ∧
  (succeeded (admin_delete_user admin9 2 reviewed_store).1 = true ∧
   reviews (admin_delete_user admin9 2 reviewed_store).2 = ∅ ∧
   p_ratings <$> products (admin_delete_user admin9 2 reviewed_store).2 !! 10
     = Some (mkRatings 4%Q 1) ∧
   u_ratings <$> users (admin_delete_user admin9 2 reviewed_store).2 !! 1
     = Some (mkRatings 4%Q 1)).
Proof.
  split; [|split; [|split]].
  - unfold admin_delete_user.
    repeat (first [ case_bool_decide | case_match ]); simpl; try discriminate.
    all: intros _; split; [apply lookup_delete_eq|].
    all: split; intros id x Hx; case_decide.
    all: try (apply map_lookup_filter_None; right; intros ? ?; simpl; congruence).
    all: apply map_lookup_filter_Some; split; [done | simpl; congruence].
  - intros id p' Hp'. exists p'. split; [|done].
    revert Hp'. unfold admin_delete_user.
    repeat (first [ case_bool_decide | case_match ]); simpl; try done.
    all: by intros [? _]%map_lookup_filter_Some.
  - intros id x' Hx'. exists x'. split; [|done].
    revert Hx'. unfold admin_delete_user.
    repeat (first [ case_bool_decide | case_match ]); simpl; try done.
    all: by intros [_ ?]%lookup_delete_Some.
  - repeat split; vm_compute; reflexivity.
Qed.

(** ** Rating aggregation *)

Lemma totalRating_sum (rs : list Review) :
  totalRating rs = foldr Z.add 0%Z (r_rating <$> rs).
Proof.
  unfold totalRating.
  assert (H : ∀ acc, fold_left (λ sum review, sum + r_rating review)%Z rs acc
                     = (acc + foldr Z.add 0 (r_rating <$> rs))%Z).
  { induction rs as [|r rs IH]; intros acc; csimpl; [lia|]. rewrite IH. lia. }
  rewrite H. lia.
Qed.

(** The handlers' computation is the specified aggregate. *)
Lemma computed_ratings_aggregate (rs : list Review) :
  computed_ratings rs = aggregate (r_rating <$> rs).
Proof.
  unfold computed_ratings, averageRating, aggregate, mean.
  rewrite length_fmap, totalRating_sum.
  by destruct (decide (0 < length rs)).
Qed.

Lemma aggregate_perm (l l' : list Z) : l ≡ₚ l' → aggregate l = aggregate l'.
Proof.
  intros Hp. unfold aggregate, mean.
  rewrite (Permutation_length Hp).
  assert (foldr Z.add 0%Z l = foldr Z.add 0%Z l') as ->; [|done].
  induction Hp; simpl; lia.
Qed.

Section ratings_by.
Context (key : Review → nat).

Lemma ratings_by_insert (k i : nat) (r : Review) (m : gmap nat Review) :
  m !! i = None →
  ratings_by key k (<[i:=r]> m) ≡ₚ
    (if decide (key r = k) then [r_rating r] else []) ++ ratings_by key k m.
Proof.
  intros Hi. unfold ratings_by. rewrite map_filter_insert. simpl.
  destruct (decide (key r = k)) as [Hk|Hk]; simpl.
  - rewrite map_to_list_insert; [done|].
    apply map_lookup_filter_None. by left.
  - by rewrite delete_id.
Qed.

Lemma ratings_by_delete (k i : nat) (r : Review) (m : gmap nat Review) :
  m !! i = Some r →
  ratings_by key k m ≡ₚ
    (if decide (key r = k) then [r_rating r] else []) ++ ratings_by key k (delete i m).
Proof.
  intros Hi. rewrite <- (insert_delete_id m i r Hi) at 1.
  apply ratings_by_insert, lookup_delete_eq.
Qed.

(** Rewriting a review in place, keeping its key, disturbs no list it
    contributes to with an unchanged rating. *)
Lemma ratings_by_alter (k i : nat) (f : Review → Review) (r : Review)
    (m : gmap nat Review) :
  m !! i = Some r →
  key (f r) = key r →
  (key r = k → r_rating (f r) = r_rating r) →
  ratings_by key k (alter f i m) ≡ₚ ratings_by key k m.
Proof.
  intros Hi Hkey Hrat.
  assert (alter f i m = <[i:=f r]> (delete i m)) as ->.
  { apply map_eq. intros j. destruct (decide (i = j)) as [<-|Hne].
    - by rewrite lookup_alter_eq, Hi, lookup_insert_eq.
    - by rewrite lookup_alter_ne, lookup_insert_ne, lookup_delete_ne. }
  rewrite ratings_by_insert by apply lookup_delete_eq.
  rewrite (ratings_by_delete k i r m Hi), Hkey.
  case_decide; [|done]. by rewrite Hrat.
Qed.

End ratings_by.

(** Recomputing the product [pid] and the seller [sid] after the review
    collection became [m'] restores consistency, as long as the change
    left the ratings of every other product and seller as they were. *)
Lemma recompute_consistent (s : Store) (m' : gmap nat Review) (pid sid : nat) :
  ratings_consistent s →
  (∀ k, k ≠ pid → ratings_by r_productId k m' ≡ₚ ratings_by r_productId k (reviews s)) →
  (∀ k, k ≠ sid → ratings_by r_sellerId k m' ≡ₚ ratings_by r_sellerId k (reviews s)) →
  ratings_consistent
    (updateSellerRatings sid
       (updateProductRatings pid (mkStore (users s) (products s) (orders s) m'))).
Proof.
  intros [Hp Hu] Hpk Hsk. split; simpl; intros id x; rewrite lookup_alter;
    case_decide as Hid.
  - subst id. destruct (products s !! pid) as [p|]; [|done].
    intros [= <-]. simpl. apply computed_ratings_aggregate.
  - intros Hx. rewrite (Hp _ _ Hx). symmetry. apply aggregate_perm, Hpk. congruence.
  - subst id. destruct (users s !! sid) as [y|]; [|done].
    intros [= <-]. simpl. apply computed_ratings_aggregate.
  - intros Hx. rewrite (Hu _ _ Hx). symmetry. apply aggregate_perm, Hsk. congruence.
Qed.

(** A change of the review collection that disturbs no ratings list needs
    no recomputation. *)
Lemma rewrite_consistent (s : Store) (m' : gmap nat Review) :
  ratings_consistent s →
  (∀ k, ratings_by r_productId k m' ≡ₚ ratings_by r_productId k (reviews s)) →
  (∀ k, ratings_by r_sellerId k m' ≡ₚ ratings_by r_sellerId k (reviews s)) →
  ratings_consistent (mkStore (users s) (products s) (orders s) m').
Proof.
  intros [Hp Hu] Hpk Hsk. split; simpl; intros id x Hx.
  - rewrite (Hp _ _ Hx). symmetry. apply aggregate_perm, Hpk.
  - rewrite (Hu _ _ Hx). symmetry. apply aggregate_perm, Hsk.
Qed.

Lemma create_review_consistent (u : Caller) (productId : nat) (rating : Z)
    (comment : string) (t : ReviewType) (s : Store) :
  ratings_consistent s → ratings_consistent (create_review u productId rating comment t s).2.
Proof.
  intros Hinv. unfold create_review.
  repeat (first [ case_decide | case_match ]); simpl; try done.
  apply (recompute_consistent s (<[new_id (reviews s) := _]> (reviews s))); [done|..];
    intros k Hk; rewrite ratings_by_insert by apply new_id_fresh; simpl;
    by rewrite decide_False by congruence.
Qed.

Lemma update_review_consistent (u : Caller) (id : nat) (rating : option Z)
    (comment : option string) (s : Store) :
  ratings_consistent s → ratings_consistent (update_review u id rating comment s).2.
Proof.
  intros Hinv. unfold update_review.
  repeat (first [ case_decide | case_match ]); simpl; try done.
  - apply (recompute_consistent s (alter _ id (reviews s))); [done|..];
      intros k Hk; (eapply ratings_by_alter; [done| |]);
      destruct comment; simpl; congruence.
  - apply (rewrite_consistent s (alter _ id (reviews s))); [done|..];
      intros k; (eapply ratings_by_alter; [done| |]);
      destruct comment; simpl; congruence.
Qed.

Lemma delete_review_consistent (u : Caller) (id : nat) (s : Store) :
  ratings_consistent s → ratings_consistent (delete_review u id s).2.
Proof.
  intros Hinv. unfold delete_review.
  repeat (first [ case_decide | case_match ]); simpl; try done.
  apply (recompute_consistent s (delete id (reviews s))); [done|..];
    intros k Hk; (erewrite (ratings_by_delete _ k id _ (reviews s)); [|done]);
    by rewrite decide_False by congruence.
Qed.

Lemma review_request_consistent (rq : Request) (s : Store) :
  review_request rq → ratings_consistent s → ratings_consistent (handle rq s).2.
Proof.
  destruct rq as [u []]; simpl; try done; intros _.
  - apply create_review_consistent.
  - apply update_review_consistent.
  - apply delete_review_consistent.
Qed.

Lemma run_review_requests_consistent (rqs : list Request) (s : Store) :
  Forall review_request rqs → ratings_consistent s → ratings_consistent (run rqs s).
Proof.
  intros Hrqs Hinv. induction rqs as [|rq rqs IH] using rev_ind; [done|].
  apply Forall_app in Hrqs as [Hrqs Hrq]. rewrite Forall_singleton in Hrq.
  rewrite run_snoc. apply review_request_consistent; auto.
Qed.

(** C2.  Start from a store whose rating aggregates are consistent and
    serve any sequence of review requests (create, update, delete).  After
    each of them, every stored product has as ratings average the mean of
    the ratings of the reviews naming it as product (0 when none does) and
    as ratings count their number, and every stored user has the same for
    the reviews naming them as seller.  In particular, when buyer 2
    deletes the only review of product 10, the product and its seller are
    back to average 0 and count 0. *)
Theorem review_routes_keep_ratings (s : Store) (rqs : list Request) (n : nat) :
  ratings_consistent s →
  Forall review_request rqs →
  (∀ id p, products (run (take n rqs) s) !! id = Some p →
     average (p_ratings p)
       = mean (ratings_by r_productId id (reviews (run (take n rqs) s))) ∧
     count (p_ratings p)
       = length (ratings_by r_productId id (reviews (run (take n rqs) s)))) ∧
  (∀ id x, users (run (take n rqs) s) !! id = Some x →
     average (u_ratings x)
       = mean (ratings_by r_sellerId id (reviews (run (take n rqs) s))) ∧
     count (u_ratings x)
       = length (ratings_by r_sellerId id (reviews (run (take n rqs) s)))) ∧
  mean [] = 0%Q ∧
  ((delete_review buyer2 0 reviewed_store).1 = Ok 200 ∧
   p_ratings <$> products reviewed_store !! 10 = Some (mkRatings 4%Q 1) ∧
   p_ratings <$> products (delete_review buyer2 0 reviewed_store).2 !! 10
     = Some (mkRatings 0%Q 0) ∧
   u_ratings <$> users (delete_review buyer2 0 reviewed_store).2 !! 1
     = Some (mkRatings 0%Q 0)).
Proof.
  intros Hinv Hrqs.
  assert (Hn : ratings_consistent (run (take n rqs) s))
    by (apply run_review_requests_consistent; [by apply Forall_take | done]).
  destruct Hn as [Hp Hu].
  split; [|split; [|split]].
  - intros id p Hl. by rewrite (Hp _ _ Hl).
  - intros id x Hl. by rewrite (Hu _ _ Hl).
  - reflexivity.
  - repeat split; vm_compute; reflexivity.
Qed.

Lemma review_routes_keep_ratings_witness :
  ratings_consistent sold_store ∧
  Forall review_request review_session ∧
  ∀ id p, products (run (take 2 review_session) sold_store) !! id = Some p →
    average (p_ratings p)
      = mean (ratings_by r_productId id (reviews (run (take 2 review_session) sold_store))) ∧
    count (p_ratings p)
      = length (ratings_by r_productId id (reviews (run (take 2 review_session) sold_store))).
Proof.
  assert (H1 : ratings_consistent sold_store)
    by (apply (bool_decide_unpack _); vm_compute; exact I).
  assert (H2 : Forall review_request review_session)
    by (repeat constructor).
  split; [exact H1|]. split; [exact H2|].
  exact (proj1 (review_routes_keep_ratings sold_store review_session 2 H1 H2)).
Defined.

Example review_session_ratings :
  p_ratings <$> products (run (take 1 review_session) sold_store) !! 10
    = Some (mkRatings 4%Q 1) ∧
  p_ratings <$> products (run (take 2 review_session) sold_store) !! 10
    = Some (mkRatings 2%Q 1) ∧
  u_ratings <$> users (run (take 2 review_session) sold_store) !! 1
    = Some (mkRatings 2%Q 1) ∧
  p_ratings <$> products (run review_session sold_store) !! 10
    = Some (mkRatings 0%Q 0).
Proof. repeat split; vm_compute; reflexivity. Qed.

(** ** Review creation *)

Lemma find_reviews_nil (P : Review → Prop) `{!∀ r, Decision (P r)} (s : Store) :
  find_reviews P s = [] ↔ ∀ id r, reviews s !! id = Some r → ¬ P r.
Proof.
  unfold find_reviews. split.
  - intros Hnil%fmap_nil_inv%map_to_list_empty_iff id r Hr HP.
    assert (Hin : filter (λ kv, P kv.2) (reviews s) !! id = Some r)
      by (by apply map_lookup_filter_Some).
    rewrite Hnil, lookup_empty in Hin. discriminate.
  - intros Hno.
    assert (filter (λ kv, P kv.2) (reviews s) = ∅) as ->; [|by rewrite map_to_list_empty].
    apply map_empty. intros id. apply map_lookup_filter_None.
    right. intros r Hr. simpl. by eapply Hno.
Qed.

(** How one request changes the review collection: either every review
    stored afterwards was stored before under the same id, for the same
    product and by the same author, or exactly one review was added, for a
    pair that had none. *)
Lemma handle_reviews (rq : Request) (s : Store) :
  (∀ id r', reviews (handle rq s).2 !! id = Some r' →
     ∃ r, reviews s !! id = Some r ∧
          r_productId r' = r_productId r ∧ r_userId r' = r_userId r) ∨
  (∃ r, reviews (handle rq s).2 = <[new_id (reviews s) := r]> (reviews s) ∧
        ¬ reviewed_by s (r_productId r) (r_userId r)).
Proof.
  assert (Hsame : ∀ id r', reviews s !! id = Some r' →
     ∃ r, reviews s !! id = Some r ∧
          r_productId r' = r_productId r ∧ r_userId r' = r_userId r) by eauto.
  destruct rq as [u op].
  destruct op; simpl; unfold_handlers; handler_cases;
    try (by left).
  (* create: no review of the pair was found *)
  1: { right. eexists; split; [done|]. simpl.
       intros (id0 & r0 & Hr & Hpid & Huid).
       match goal with H : find_reviews _ _ = [] |- _ =>
         eapply (proj1 (find_reviews_nil _ _) H); [exact Hr | by split] end. }
  (* every other request rewrites or removes stored reviews *)
  all: left; intros id' r' Hl.
  all: first
    [ apply lookup_alter_Some in Hl as [[-> (r0 & Hr & ->)]|[_ Hr]];
      [exists r0; split; [done|]; by destruct comment | by eauto]
    | apply lookup_delete_Some in Hl as [_ Hr]; by eauto
    | apply map_lookup_filter_Some in Hl as [Hr _]; by eauto ].
Qed.

Lemma handle_keeps_one_review_per_pair (rq : Request) (s : Store) :
  one_review_per_pair (reviews s) → one_review_per_pair (reviews (handle rq s).2).
Proof.
  intros Hone. destruct (handle_reviews rq s) as [Hsub|(r & -> & Hnew)].
  - intros i j ri rj Hi Hj Hpid Huid.
    destruct (Hsub _ _ Hi) as (ri0 & Hi0 & Hpi & Hui).
    destruct (Hsub _ _ Hj) as (rj0 & Hj0 & Hpj & Huj).
    eapply Hone; [exact Hi0 | exact Hj0 | congruence | congruence].
  - intros i j ri rj Hi Hj Hpid Huid.
    apply lookup_insert_Some in Hi as [[<- <-]|[Hni Hi]];
      apply lookup_insert_Some in Hj as [[<- <-]|[Hnj Hj]].
    + done.
    + destruct Hnew. exists j, rj. by split.
    + destruct Hnew. exists i, ri. by split.
    + by eapply Hone.
Qed.

Lemma run_keeps_one_review_per_pair (rqs : list Request) (s : Store) :
  one_review_per_pair (reviews s) → one_review_per_pair (reviews (run rqs s)).
Proof.
  intros Hone. induction rqs as [|rq rqs IH] using rev_ind; [done|].
  rewrite run_snoc. by apply handle_keeps_one_review_per_pair.
Qed.

(** C8 (as amended).  POST /api/reviews succeeds only when the product is
    stored with status sold and the caller as buyerId (and the caller has
    not reviewed it yet).  When a review by the caller on the product is
    already stored, the request always fails and leaves the store as it
    was; the answer is the duplicate conflict 'You have already reviewed
    this product' whenever the request is valid and the product is still
    stored, sold and bought by the caller, the earlier checks answering
    otherwise.  Hence, along any sequence of requests, at most one review
    per (productId, userId) pair is ever stored.  The earlier checks
    answer, in this order and whether or not a review exists: 400
    'Validation failed' for a rating outside 1..5 or a comment outside
    1..500 characters, 404 'Product not found' for a product that is not
    stored, 403 'You can only review products you have purchased' when
    the caller is not the product's buyerId, and 400 'You can only review
    completed purchases' when the product is not sold. *)
Theorem create_review_guards (u : Caller) (productId : nat) (rating : Z)
    (comment : string) (t : ReviewType) (s : Store) :
  (succeeded (create_review u productId rating comment t s).1 = true →
     (∃ p, products s !! productId = Some p ∧
           p_status p = P_sold ∧ p_buyerId p = Some (c_id u)) ∧
     ¬ reviewed_by s productId (c_id u)) ∧
  (reviewed_by s productId (c_id u) →
     succeeded (create_review u productId rating comment t s).1 = false ∧
     (create_review u productId rating comment t s).2 = s ∧
     ∀ p, valid_rating rating = true → valid_comment comment = true →
          products s !! productId = Some p →
          p_status p = P_sold → p_buyerId p = Some (c_id u) →
          (create_review u productId rating comment t s).1 = already_reviewed) ∧
  (one_review_per_pair (reviews s) →
     ∀ rqs, one_review_per_pair (reviews (run rqs s))) ∧
  ((valid_rating rating && valid_comment comment = false →
      (create_review u productId rating comment t s).1 = Err 400 "Validation failed") ∧
   (valid_rating rating && valid_comment comment = true →
      products s !! productId = None →
      (create_review u productId rating comment t s).1 = Err 404 "Product not found") ∧
   (∀ p, valid_rating rating && valid_comment comment = true →
      products s !! productId = Some p → p_buyerId p ≠ Some (c_id u) →
      (create_review u productId rating comment t s).1
        = Err 403 "You can only review products you have purchased") ∧
   (∀ p, valid_rating rating && valid_comment comment = true →
      products s !! productId = Some p → p_buyerId p = Some (c_id u) →
      p_status p ≠ P_sold →
      (create_review u productId rating comment t s).1
        = Err 400 "You can only review completed purchases")).
Proof.
  assert (Hfound : reviewed_by s productId (c_id u) →
            find_reviews (λ r, r_productId r = productId ∧ r_userId r = c_id u) s ≠ []).
  { intros (id & r & Hr & Hpid & Huid) Hnil.
    eapply (proj1 (find_reviews_nil _ _) Hnil); [exact Hr | by split]. }
  split; [|split; [|split]].
  - unfold create_review.
    repeat (first [ case_decide | case_match ]); simpl; try discriminate.
    intros _. split; [eauto|].
    intros Hrev. by apply Hfound.
  - intros Hrev%Hfound. unfold create_review.
    destruct (find_reviews _ s) as [|r0 rs]; [done|].
    repeat split.
    + by repeat (first [ case_decide | case_match ]).
    + by repeat (first [ case_decide | case_match ]).
    + intros p -> -> -> Hst Hb. simpl.
      rewrite decide_False by (by intros []).
      by rewrite decide_False by (by intros []).
  - intros Hone rqs. by apply run_keeps_one_review_per_pair.
  - unfold create_review. repeat split.
    + by intros ->.
    + by intros -> ->.
    + intros p -> -> Hb. simpl. by rewrite decide_True.
    + intros p -> -> Hb Hst. simpl.
      rewrite decide_False by (by intros []). by rewrite decide_True.
Qed.

Lemma create_review_guards_witness :
  reviewed_by reviewed_store 10 (c_id buyer2) ∧
  succeeded (create_review buyer2 10 5 "again" RT_product reviewed_store).1 = false ∧
  (create_review buyer2 10 5 "again" RT_product reviewed_store).2 = reviewed_store ∧
  (create_review buyer2 10 5 "again" RT_product reviewed_store).1 = already_reviewed.
Proof.
  assert (Hrev : reviewed_by reviewed_store 10 (c_id buyer2)).
  { exists 0, (mkReview 10 2 1 4 "good" RT_product). repeat split; reflexivity. }
  split; [exact Hrev|].
  destruct (proj1 (proj2 (create_review_guards buyer2 10 5 "again" RT_product
                            reviewed_store)) Hrev) as (Hfail & Hsame & Hdup).
  split; [exact Hfail|]. split; [exact Hsame|].
  apply (Hdup (mkProduct 1 100%Q P_sold (Some 2) (mkRatings 4%Q 1))); reflexivity.
Defined.

Example resale_succeeds :
  responses resale listed_store = [Ok 201; Ok 200; Ok 200; Ok 200; Ok 201; Ok 200; Ok 200].
Proof. vm_compute. reflexivity. Qed.

(** C8, as stated, fails.  In [resold_store] a review by buyer 2 on
    product 10 is stored, yet a second, valid review request by buyer 2 on
    product 10 is answered 403 'You can only review products you have
    purchased' and not by the duplicate conflict: the buyer check comes
    first and the product now has another buyer. *)
Lemma second_review_not_always_conflict :
  reviewed_by resold_store 10 (c_id buyer2) ∧
  valid_rating 5 = true ∧ valid_comment "again" = true ∧
  create_review buyer2 10 5 "again" RT_product resold_store =
    (Err 403 "You can only review products you have purchased", resold_store) ∧
  ¬ (∀ rqs u productId rating comment t,
       valid_rating rating = true → valid_comment comment = true →
       reviewed_by (run rqs listed_store) productId (c_id u) →
       (create_review u productId rating comment t (run rqs listed_store)).1
         = already_reviewed).
Proof.
  assert (Hrev : reviewed_by resold_store 10 (c_id buyer2)).
  { exists 0, (mkReview 10 2 1 4 "good" RT_product). repeat split; reflexivity. }
  split; [exact Hrev|]. split; [reflexivity|]. split; [reflexivity|].
  split; [vm_compute; reflexivity|].
  intros Hall.
  specialize (Hall resale buyer2 10 5%Z "again" RT_product eq_refl eq_refl Hrev).
  vm_compute in Hall. discriminate.
Qed.

(** ** The two end-to-end scenarios of the specification *)

(** Seller 1 lists product 10 at price 100.  Buyer 2 purchases it (pending,
    buyerId 2), confirms the purchase (sold) and rates it 4: product and
    seller then show average 4 and count 1.  A second review by buyer 2
    is rejected as a duplicate. *)
Example listing_scenario :
  products (run [ (buyer2, Purchase 10) ] listed_store) !! 10
    = Some (mkProduct 1 100%Q P_pending (Some 2) default_ratings) ∧
  products sold_store !! 10
    = Some (mkProduct 1 100%Q P_sold (Some 2) default_ratings) ∧
  products reviewed_store !! 10
    = Some (mkProduct 1 100%Q P_sold (Some 2) (mkRatings 4%Q 1)) ∧
  users reviewed_store !! 1 = Some (mkUser R_seller (mkRatings 4%Q 1)) ∧
  create_review buyer2 10 5 "again" RT_product reviewed_store
    = (already_reviewed, reviewed_store).
Proof. repeat split; vm_compute; reflexivity. Qed.

(** An order is created for product 10 (amount 100, escrowed, pending);
    the seller cancels before shipping: the order is cancelled and
    refunded and the product is available. *)
Example order_scenario :
  orders (run [ (buyer2, CreateOrder 10 home None) ] listed_store) !! 0
    = Some (mkOrder 10 2 1 100%Q O_pending Pay_escrowed home None None) ∧
  orders (run [ (buyer2, CreateOrder 10 home None); (seller1, CancelOrder 0) ]
              listed_store) !! 0
    = Some (mkOrder 10 2 1 100%Q O_cancelled Pay_refunded home None None) ∧
  products (run [ (buyer2, CreateOrder 10 home None); (seller1, CancelOrder 0) ]
                listed_store) !! 10
    = Some (mkProduct 1 100%Q P_available None default_ratings).
Proof. repeat split; vm_compute; reflexivity. Qed.

(** * Further properties of the handlers *)

(** ** Listing routes: confirm, cancel, delete *)

(** X1.  For a stored product, confirm-purchase succeeds exactly when the
    caller is the product's buyer and the status is pending; it then
    stores the product as sold with the buyer kept.  A caller who is not
    the buyer is answered 403 whatever the status; the buyer of a product
    that is not pending is answered 400.  Failures change nothing. *)
Theorem confirm_purchase_spec (u : Caller) (id : nat) (s : Store) (product : Product) :
  products s !! id = Some product →
  (succeeded (confirm_purchase u id s).1 = true ↔
     p_buyerId product = Some (c_id u) ∧ p_status product = P_pending) ∧
  (succeeded (confirm_purchase u id s).1 = true →
     (confirm_purchase u id s).2 =
       with_products
         (insert id (mkProduct (p_sellerId product) (p_price product) P_sold
                               (Some (c_id u)) (p_ratings product))) s) ∧
  (p_buyerId product ≠ Some (c_id u) →
     (confirm_purchase u id s).1 = Err 403 "Access denied. You are not the buyer.") ∧
  (p_buyerId product = Some (c_id u) → p_status product ≠ P_pending →
     (confirm_purchase u id s).1 = Err 400 "Product is not in pending status") ∧
  (succeeded (confirm_purchase u id s).1 = false → (confirm_purchase u id s).2 = s).
Proof.
  intros Hp. unfold confirm_purchase. rewrite Hp.
  repeat case_decide; simpl; repeat split; try intros [? ?]; intros;
    try congruence; try discriminate.
  unfold set_p_status; simpl. congruence.
Qed.

Lemma confirm_purchase_spec_witness :
  products pending_store !! 10 =
    Some (mkProduct 1 100%Q P_pending (Some 2) default_ratings) ∧
  succeeded (confirm_purchase buyer2 10 pending_store).1 = true ∧
  (confirm_purchase buyer3 10 pending_store).1 =
    Err 403 "Access denied. You are not the buyer.".
Proof.
  split; [reflexivity|].
  pose proof (confirm_purchase_spec buyer2 10 pending_store
                (mkProduct 1 100%Q P_pending (Some 2) default_ratings) eq_refl)
    as (Hok & _).
  pose proof (confirm_purchase_spec buyer3 10 pending_store
                (mkProduct 1 100%Q P_pending (Some 2) default_ratings) eq_refl)
    as (_ & _ & Hdenied & _).
  split; [apply Hok; split; reflexivity | apply Hdenied; discriminate].
Defined.

(** X2.  For a stored product, cancel-purchase succeeds exactly when the
    caller is the product's buyer or its seller and the status is pending;
    it then stores the product as available with a null buyer.  Anyone
    else is answered 403, a buyer or seller of a product that is not
    pending 400.  Failures change nothing. *)
Theorem cancel_purchase_spec (u : Caller) (id : nat) (s : Store) (product : Product) :
  products s !! id = Some product →
  (succeeded (cancel_purchase u id s).1 = true ↔
     (p_buyerId product = Some (c_id u) ∨ p_sellerId product = c_id u) ∧
     p_status product = P_pending) ∧
  (succeeded (cancel_purchase u id s).1 = true →
     (cancel_purchase u id s).2 =
       with_products
         (insert id (mkProduct (p_sellerId product) (p_price product) P_available
                               None (p_ratings product))) s) ∧
  (p_buyerId product ≠ Some (c_id u) → p_sellerId product ≠ c_id u →
     (cancel_purchase u id s).1 = Err 403 "Access denied.") ∧
  ((p_buyerId product = Some (c_id u) ∨ p_sellerId product = c_id u) →
     p_status product ≠ P_pending →
     (cancel_purchase u id s).1 = Err 400 "Product is not in pending status") ∧
  (succeeded (cancel_purchase u id s).1 = false → (cancel_purchase u id s).2 = s).
Proof.
  intros Hp. unfold cancel_purchase. rewrite Hp.
  repeat case_bool_decide; repeat case_decide; simpl;
    repeat split; try intros [? ?]; intros;
    try tauto; try congruence; try discriminate.
Qed.

Lemma cancel_purchase_spec_witness :
  products pending_store !! 10 =
    Some (mkProduct 1 100%Q P_pending (Some 2) default_ratings) ∧
  succeeded (cancel_purchase seller1 10 pending_store).1 = true ∧
  (cancel_purchase buyer3 10 pending_store).1 = Err 403 "Access denied.".
Proof.
  split; [reflexivity|].
  pose proof (cancel_purchase_spec seller1 10 pending_store
                (mkProduct 1 100%Q P_pending (Some 2) default_ratings) eq_refl)
    as (Hok & _).
  pose proof (cancel_purchase_spec buyer3 10 pending_store
                (mkProduct 1 100%Q P_pending (Some 2) default_ratings) eq_refl)
    as (_ & _ & Hdenied & _).
  split; [apply Hok; split; [right|]; reflexivity
         | apply Hdenied; simpl; [discriminate | lia]].
Defined.

(** X3.  Start from a store in which every product has a buyer exactly
    when it is pending or sold.  Any sequence of purchase,
    confirm-purchase and cancel-purchase requests, from any callers,
    keeps it so. *)
Theorem listing_requests_keep_buyer_invariant (s : Store) (rqs : list Request) :
  buyer_invariant s →
  Forall listing_request rqs →
  buyer_invariant (run rqs s).
Proof.
  intros Hinv Hrqs. induction rqs as [|rq rqs IH] using rev_ind; [done|].
  apply Forall_app in Hrqs as [Hrqs Hrq]. rewrite Forall_singleton in Hrq.
  rewrite run_snoc. specialize (IH Hrqs).
  destruct rq as [u op].
  destruct (listing_routes_keep_buyer_invariant u
              match op with
              | Purchase id | ConfirmPurchase id | CancelPurchase id => id
              | _ => 0
              end (run rqs s) IH) as (H1 & H2 & H3).
  by destruct op.
Qed.

Lemma listing_requests_keep_buyer_invariant_witness :
  buyer_invariant listed_store ∧
  Forall listing_request
    [ (buyer2, Purchase 10); (seller1, CancelPurchase 10); (buyer3, Purchase 10);
      (buyer3, ConfirmPurchase 10) ] ∧
  buyer_invariant
    (run [ (buyer2, Purchase 10); (seller1, CancelPurchase 10); (buyer3, Purchase 10);
           (buyer3, ConfirmPurchase 10) ] listed_store).
Proof.
  assert (H1 : buyer_invariant listed_store).
  { intros id p Hp. simpl in Hp. apply lookup_singleton_Some in Hp as [<- <-].
    unfold buyer_matches_status; simpl. split; [done | intros [|]; discriminate]. }
  assert (H2 : Forall listing_request
    [ (buyer2, Purchase 10); (seller1, CancelPurchase 10); (buyer3, Purchase 10);
      (buyer3, ConfirmPurchase 10) ]) by (repeat constructor).
  split; [exact H1|]. split; [exact H2|].
  exact (listing_requests_keep_buyer_invariant listed_store _ H1 H2).
Defined.

Lemma listing_request_keeps_final_product (rq : Request) (s : Store) (id : nat)
    (p : Product) :
  listing_request rq →
  products s !! id = Some p →
  p_status p ≠ P_available → p_status p ≠ P_pending →
  products (handle rq s).2 !! id = Some p.
Proof.
  intros Hrq Hp Hna Hnp. destruct rq as [u op].
  destruct op; simpl in *; try done;
    unfold purchase, confirm_purchase, cancel_purchase;
    repeat (first [ case_decide | case_match ]); simpl; try done;
    (destruct (decide (id0 = id)) as [->|Hne];
       [congruence | by rewrite lookup_insert_ne]).
Qed.

(** X4.  A product whose status is neither available nor pending (a sold
    product, or one an admin suspended) is out of reach of the listing
    routes: no sequence of purchase, confirm-purchase and cancel-purchase
    requests changes the stored product. *)
Theorem sold_product_is_final (s : Store) (rqs : list Request) (id : nat) (p : Product) :
  products s !! id = Some p →
  p_status p ≠ P_available → p_status p ≠ P_pending →
  Forall listing_request rqs →
  products (run rqs s) !! id = Some p.
Proof.
  intros Hp Hna Hnp Hrqs. induction rqs as [|rq rqs IH] using rev_ind; [done|].
  apply Forall_app in Hrqs as [Hrqs Hrq]. rewrite Forall_singleton in Hrq.
  rewrite run_snoc. apply listing_request_keeps_final_product; auto.
Qed.

Lemma sold_product_is_final_witness :
  products sold_store !! 10 = Some (mkProduct 1 100%Q P_sold (Some 2) default_ratings) ∧
  products (run [ (buyer3, Purchase 10); (seller1, CancelPurchase 10);
                  (buyer2, ConfirmPurchase 10) ] sold_store) !! 10
    = Some (mkProduct 1 100%Q P_sold (Some 2) default_ratings).
Proof.
  split; [reflexivity|].
  apply (sold_product_is_final sold_store
           [ (buyer3, Purchase 10); (seller1, CancelPurchase 10);
             (buyer2, ConfirmPurchase 10) ] 10
           (mkProduct 1 100%Q P_sold (Some 2) default_ratings));
    [reflexivity | discriminate | discriminate | repeat constructor].
Defined.

(** X5.  For a stored product, DELETE /api/products/:id succeeds exactly
    when the caller has role seller or both, is the product's seller, and
    the status is neither sold nor pending (so also for a suspended
    product).  It then removes that product and nothing else: the reviews
    naming the product stay stored.  Failures change nothing. *)
Theorem delete_product_route_spec (u : Caller) (id : nat) (s : Store) (product : Product) :
  products s !! id = Some product →
  (succeeded (delete_product_route u id s).1 = true ↔
     (c_role u = R_seller ∨ c_role u = R_both) ∧
     p_sellerId product = c_id u ∧
     p_status product ≠ P_sold ∧ p_status product ≠ P_pending) ∧
  (succeeded (delete_product_route u id s).1 = true →
     (delete_product_route u id s).2 =
       mkStore (users s) (delete id (products s)) (orders s) (reviews s)) ∧
  (succeeded (delete_product_route u id s).1 = false →
     (delete_product_route u id s).2 = s).
Proof.
  intros Hp. unfold delete_product_route, isSeller. rewrite Hp.
  repeat case_bool_decide; repeat case_decide; simpl;
    repeat split; try intros [? ?]; intros;
    try tauto; try congruence; try discriminate;
    destruct (c_role u); intuition congruence.
Qed.

Lemma delete_product_route_spec_witness :
  products listed_store !! 10 = Some (mkProduct 1 100%Q P_available None default_ratings) ∧
  succeeded (delete_product_route seller1 10 listed_store).1 = true ∧
  succeeded (delete_product_route buyer2 10 listed_store).1 = false.
Proof.
  split; [reflexivity|].
  pose proof (delete_product_route_spec seller1 10 listed_store
                (mkProduct 1 100%Q P_available None default_ratings) eq_refl)
    as (Hok & _).
  pose proof (delete_product_route_spec buyer2 10 listed_store
                (mkProduct 1 100%Q P_available None default_ratings) eq_refl)
    as (Hno & _).
  split.
  - apply Hok. repeat split; (by left) || discriminate || reflexivity.
  - destruct (succeeded (delete_product_route buyer2 10 listed_store).1) eqn:E;
      [|reflexivity].
    destruct (proj1 Hno eq_refl) as ([H|H] & _); discriminate.
Defined.

(** ** Order routes: ship, create, and what no request does to an order *)

(** X6.  For a stored order, ship succeeds exactly when the caller is the
    order's seller and the status is confirmed.  It then stores the order
    as shipped, with the payment status as it was and the tracking number
    replaced only by a non-empty one (an omitted or empty tracking number
    keeps the old value).  Another caller is answered 403 whatever the
    status, the seller of an order that is not confirmed 400.  Failures
    change nothing. *)
Theorem ship_order_spec (u : Caller) (id : nat) (t : option string) (s : Store)
    (order : Order) :
  orders s !! id = Some order →
  (succeeded (ship_order u id t s).1 = true ↔
     o_sellerId order = c_id u ∧ o_status order = O_confirmed) ∧
  (succeeded (ship_order u id t s).1 = true →
     (ship_order u id t s).2 =
       with_orders
         (insert id
            (mkOrder (o_productId order) (o_buyerId order) (o_sellerId order)
                     (o_amount order) O_shipped (o_paymentStatus order)
                     (o_shippingAddress order)
                     (match t with
                      | Some x => if decide (x = "") then o_trackingNumber order else Some x
                      | None => o_trackingNumber order
                      end)
                     (o_notes order))) s) ∧
  (o_sellerId order ≠ c_id u → (ship_order u id t s).1 = Err 403 "Access denied") ∧
  (o_sellerId order = c_id u → o_status order ≠ O_confirmed →
     (ship_order u id t s).1 = Err 400 "Order must be confirmed before shipping") ∧
  (succeeded (ship_order u id t s).1 = false → (ship_order u id t s).2 = s).
Proof.
  intros Ho. unfold ship_order. rewrite Ho.
  repeat case_decide; simpl; repeat split; try intros [? ?]; intros;
    try congruence; try discriminate.
  destruct t as [x|]; [destruct (decide (x = ""))|]; reflexivity.
Qed.

Lemma ship_order_spec_witness :
  orders confirmed_store !! 0 = Some confirmed_order ∧
  succeeded (ship_order seller1 0 (Some "TRK1") confirmed_store).1 = true ∧
  (ship_order buyer2 0 None confirmed_store).1 = Err 403 "Access denied".
Proof.
  split; [reflexivity|].
  pose proof (ship_order_spec seller1 0 (Some "TRK1") confirmed_store confirmed_order
                eq_refl) as (Hok & _).
  pose proof (ship_order_spec buyer2 0 None confirmed_store confirmed_order
                eq_refl) as (_ & _ & Hdenied & _).
  split; [apply Hok; split; reflexivity | apply Hdenied; simpl; lia].
Defined.

(** X10.  POST /orders succeeds exactly when the shipping address is
    complete, the product is stored and available, its seller's user
    document exists, and the caller is not the seller.  It then adds one
    order under an unused id (pending, escrowed, amount the product's
    price) and sets the product's status to pending; users, reviews and
    the other orders stay as they were.  Failures change nothing. *)
Theorem create_order_spec (u : Caller) (productId : nat) (a : ShippingAddress)
    (n : option string) (s : Store) :
  (succeeded (create_order u productId a n s).1 = true ↔
     validate_order_body a = [] ∧
     ∃ p, products s !! productId = Some p ∧ p_status p = P_available ∧
          is_Some (users s !! p_sellerId p) ∧ p_sellerId p ≠ c_id u) ∧
  (succeeded (create_order u productId a n s).1 = true →
     ∃ p, products s !! productId = Some p ∧
          orders s !! new_id (orders s) = None ∧
          (create_order u productId a n s).2 =
            mkStore (users s)
                    (alter (set_p_status P_pending) productId (products s))
                    (<[new_id (orders s) :=
                         mkOrder productId (c_id u) (p_sellerId p) (p_price p)
                                 O_pending Pay_escrowed a None n]> (orders s))
                    (reviews s)) ∧
  (succeeded (create_order u productId a n s).1 = false →
     (create_order u productId a n s).2 = s).
Proof.
  unfold create_order.
  destruct (validate_order_body a) as [|e es]; simpl;
    [|repeat split; try done; intros [? _]; done].
  destruct (products s !! productId) as [p|] eqn:Hp; simpl;
    [|repeat split; try done; intros (_ & p & ? & _); done].
  case_decide as Hst; simpl;
    [repeat split; try done; intros (_ & p' & [= <-] & ? & _); done|].
  destruct (users s !! p_sellerId p) as [x|] eqn:Hx; simpl;
    [|repeat split; try done;
      intros (_ & p' & [= <-] & _ & [? Hsome] & _); congruence].
  case_decide as Hown; simpl;
    [repeat split; try done; intros (_ & p' & [= <-] & _ & _ & ?); done|].
  split; [|split; [|done]].
  - split; [|done]. intros _. split; [done|]. exists p. by repeat split.
  - intros _. exists p. split; [done|]. split; [apply new_id_fresh | done].
Qed.

(** What one request can do to a stored order: it stays stored with the
    terms fixed at creation, and it is rewritten at all only for its buyer
    or its seller while it is neither completed nor cancelled. *)
Lemma handle_order_change (rq : Request) (s : Store) (id : nat) (o : Order) :
  orders s !! id = Some o →
  ∃ o', orders (handle rq s).2 !! id = Some o' ∧
        same_order_terms o o' ∧
        (o' = o ∨
         (o_status o ≠ O_completed ∧ o_status o ≠ O_cancelled ∧
          (c_id rq.1 = o_buyerId o ∨ c_id rq.1 = o_sellerId o))).
Proof.
  intros Ho. destruct rq as [u op].
  assert (Hstay : ∃ o', orders s !! id = Some o' ∧ same_order_terms o o' ∧
            (o' = o ∨
             (o_status o ≠ O_completed ∧ o_status o ≠ O_cancelled ∧
              (c_id u = o_buyerId o ∨ c_id u = o_sellerId o))))
    by (exists o; repeat split; auto).
  destruct op; simpl; unfold_handlers; handler_cases; try done.
  1: (rewrite lookup_insert_ne by (by eapply new_id_ne); done).
  all: destruct (decide (id0 = id)) as [->|Hne]; [|by rewrite lookup_insert_ne].
  all: rewrite lookup_insert_eq; eexists; (split; [done|]).
  all: simplify_eq; (split; [by repeat split|]); right.
  all: try match goal with H : o_status _ ∉ _ |- _ =>
         rewrite !elem_of_cons, elem_of_nil in H end.
  all: repeat split; try congruence; try tauto; auto.
Qed.

(** X7.  Whatever requests are served, a stored order stays stored and
    keeps the product, buyer, seller, amount, shipping address and notes
    it was created with; in particular the amount is never read again
    from the product. *)
Theorem order_terms_are_fixed (s : Store) (rqs : list Request) (id : nat) (o : Order) :
  orders s !! id = Some o →
  ∃ o', orders (run rqs s) !! id = Some o' ∧
        o_productId o' = o_productId o ∧ o_buyerId o' = o_buyerId o ∧
        o_sellerId o' = o_sellerId o ∧ o_amount o' = o_amount o ∧
        o_shippingAddress o' = o_shippingAddress o ∧ o_notes o' = o_notes o.
Proof.
  intros Ho. induction rqs as [|rq rqs IH] using rev_ind.
  - exists o. by repeat split.
  - destruct IH as (o1 & Ho1 & H1). rewrite run_snoc.
    destruct (handle_order_change rq _ _ _ Ho1) as (o2 & Ho2 & H2 & _).
    exists o2. split; [done|].
    unfold same_order_terms in H2. intuition congruence.
Qed.

Lemma order_terms_are_fixed_witness :
  orders confirmed_store !! 0 = Some confirmed_order ∧
  ∃ o', orders (run [ (seller1, ShipOrder 0 (Some "TRK1"));
                      (buyer2, ConfirmDelivery 0) ] confirmed_store) !! 0 = Some o' ∧
        o_productId o' = o_productId confirmed_order ∧
        o_buyerId o' = o_buyerId confirmed_order ∧
        o_sellerId o' = o_sellerId confirmed_order ∧
        o_amount o' = o_amount confirmed_order ∧
        o_shippingAddress o' = o_shippingAddress confirmed_order ∧
        o_notes o' = o_notes confirmed_order.
Proof.
  split; [reflexivity|].
  apply (order_terms_are_fixed confirmed_store
           [ (seller1, ShipOrder 0 (Some "TRK1")); (buyer2, ConfirmDelivery 0) ]
           0 confirmed_order).
  reflexivity.
Defined.

(** X8.  A completed or cancelled order is final: whatever requests are
    served afterwards, from any caller, the stored order does not change
    (no re-cancel, no late shipment, no second release or refund). *)
Theorem terminal_order_is_final (s : Store) (rqs : list Request) (id : nat) (o : Order) :
  orders s !! id = Some o →
  o_status o = O_completed ∨ o_status o = O_cancelled →
  orders (run rqs s) !! id = Some o.
Proof.
  intros Ho Hterm. induction rqs as [|rq rqs IH] using rev_ind; [done|].
  rewrite run_snoc.
  destruct (handle_order_change rq _ _ _ IH) as (o2 & Ho2 & _ & [->|(H1 & H2 & _)]);
    [done | destruct Hterm; congruence].
Qed.

Lemma terminal_order_is_final_witness :
  orders cancelled_store !! 0
    = Some (mkOrder 10 2 1 100%Q O_cancelled Pay_refunded home None None) ∧
  orders (run [ (seller1, CancelOrder 0); (seller1, ShipOrder 0 None);
                (buyer2, ConfirmDelivery 0) ] cancelled_store) !! 0
    = Some (mkOrder 10 2 1 100%Q O_cancelled Pay_refunded home None None).
Proof.
  split; [reflexivity|].
  apply (terminal_order_is_final cancelled_store
           [ (seller1, CancelOrder 0); (seller1, ShipOrder 0 None);
             (buyer2, ConfirmDelivery 0) ] 0
           (mkOrder 10 2 1 100%Q O_cancelled Pay_refunded home None None));
    [reflexivity | by right].
Defined.

(** X9.  Only the parties of an order can change it: along any sequence
    of requests none of which comes from the order's buyer or seller
    (admin requests included), the stored order does not change. *)
Theorem third_parties_cannot_change_order (s : Store) (rqs : list Request)
    (id : nat) (o : Order) :
  orders s !! id = Some o →
  Forall (λ rq, c_id rq.1 ≠ o_buyerId o ∧ c_id rq.1 ≠ o_sellerId o) rqs →
  orders (run rqs s) !! id = Some o.
Proof.
  intros Ho Hrqs. induction rqs as [|rq rqs IH] using rev_ind; [done|].
  apply Forall_app in Hrqs as [Hrqs Hrq]. rewrite Forall_singleton in Hrq.
  rewrite run_snoc. specialize (IH Hrqs).
  destruct (handle_order_change rq _ _ _ IH) as (o2 & Ho2 & _ & [->|(_ & _ & Hparty)]);
    [done | tauto].
Qed.

Lemma third_parties_cannot_change_order_witness :
  orders confirmed_store !! 0 = Some confirmed_order ∧
  Forall (λ rq : Request, c_id rq.1 ≠ o_buyerId confirmed_order ∧
                          c_id rq.1 ≠ o_sellerId confirmed_order)
    [ (buyer3, CancelOrder 0); (admin9, ShipOrder 0 None);
      (buyer3, ConfirmDelivery 0) ] ∧
  orders (run [ (buyer3, CancelOrder 0); (admin9, ShipOrder 0 None);
                (buyer3, ConfirmDelivery 0) ] confirmed_store) !! 0
    = Some confirmed_order.
Proof.
  assert (H : Forall (λ rq : Request, c_id rq.1 ≠ o_buyerId confirmed_order ∧
                                     c_id rq.1 ≠ o_sellerId confirmed_order)
    [ (buyer3, CancelOrder 0); (admin9, ShipOrder 0 None);
      (buyer3, ConfirmDelivery 0) ]).
  { repeat constructor; simpl; lia. }
  split; [reflexivity|]. split; [exact H|].
  apply (third_parties_cannot_change_order confirmed_store _ 0 confirmed_order);
    [reflexivity | exact H].
Defined.

(** ** Review routes: edit, delete, and who can touch a review *)

(** X11.  For a stored review, PUT /api/reviews/:id succeeds exactly when
    the submitted rating (if any) is an integer from 1 to 5, the submitted
    comment (if any) has 1 to 500 characters, and the caller is the
    review's author.  It then rewrites only the submitted fields of that
    review: product, author, seller and review type never change, no other
    review is touched, and without a rating no aggregate is recomputed.
    Failures change nothing. *)
Theorem update_review_spec (u : Caller) (id : nat) (rating : option Z)
    (comment : option string) (s : Store) (review : Review) :
  reviews s !! id = Some review →
  (succeeded (update_review u id rating comment s).1 = true ↔
     from_option valid_rating true rating = true ∧
     from_option valid_comment true comment = true ∧
     r_userId review = c_id u) ∧
  (succeeded (update_review u id rating comment s).1 = true →
     reviews (update_review u id rating comment s).2 =
       <[id := mkReview (r_productId review) (r_userId review) (r_sellerId review)
                        (default (r_rating review) rating)
                        (default (r_comment review) comment)
                        (r_reviewType review)]> (reviews s) ∧
     orders (update_review u id rating comment s).2 = orders s ∧
     (rating = None →
        products (update_review u id rating comment s).2 = products s ∧
        users (update_review u id rating comment s).2 = users s)) ∧
  (succeeded (update_review u id rating comment s).1 = false →
     (update_review u id rating comment s).2 = s).
Proof.
  intros Hr. unfold update_review. rewrite Hr.
  assert (Halter : alter (λ r : Review,
              from_option (λ c, set_r_comment c (from_option (λ x, set_r_rating x r) r rating))
                (from_option (λ x, set_r_rating x r) r rating) comment) id (reviews s)
            = <[id := mkReview (r_productId review) (r_userId review) (r_sellerId review)
                        (default (r_rating review) rating)
                        (default (r_comment review) comment)
                        (r_reviewType review)]> (reviews s)).
  { apply map_eq. intros j. destruct (decide (id = j)) as [<-|Hne].
    - rewrite lookup_alter_eq, Hr, lookup_insert_eq.
      destruct rating, comment, review; reflexivity.
    - by rewrite lookup_alter_ne, lookup_insert_ne. }
  destruct (from_option valid_rating true rating);
    destruct (from_option valid_comment true comment); simpl;
    try (repeat split; try done; intros (? & ? & _); done).
  case_decide as Hau; simpl;
    [repeat split; try done; intros (_ & _ & ?); done|].
  split; [done|]. split; [|done]. intros _.
  destruct rating; simpl; repeat split; try done.
Qed.

Lemma update_review_spec_witness :
  reviews reviewed_store !! 0 = Some (mkReview 10 2 1 4 "good" RT_product) ∧
  succeeded (update_review buyer2 0 (Some 5%Z) None reviewed_store).1 = true ∧
  succeeded (update_review buyer3 0 (Some 1%Z) None reviewed_store).1 = false ∧
  succeeded (update_review buyer2 0 (Some 6%Z) None reviewed_store).1 = false.
Proof.
  split; [reflexivity|].
  pose proof (update_review_spec buyer2 0 (Some 5%Z) None reviewed_store
                (mkReview 10 2 1 4 "good" RT_product) eq_refl) as (H1 & _).
  pose proof (update_review_spec buyer3 0 (Some 1%Z) None reviewed_store
                (mkReview 10 2 1 4 "good" RT_product) eq_refl) as (H2 & _).
  pose proof (update_review_spec buyer2 0 (Some 6%Z) None reviewed_store
                (mkReview 10 2 1 4 "good" RT_product) eq_refl) as (H3 & _).
  split; [apply H1; repeat split|]. split.
  - destruct (succeeded (update_review buyer3 0 (Some 1%Z) None reviewed_store).1);
      [|reflexivity].
    destruct (proj1 H2 eq_refl) as (_ & _ & H). discriminate.
  - destruct (succeeded (update_review buyer2 0 (Some 6%Z) None reviewed_store).1);
      [|reflexivity].
    destruct (proj1 H3 eq_refl) as (H & _). discriminate.
Defined.

(** X12.  For a stored review, DELETE /api/reviews/:id succeeds exactly
    when the caller is the review's author; it then removes that review
    and no other, and leaves orders as they were.  Failures change
    nothing. *)
Theorem delete_review_spec (u : Caller) (id : nat) (s : Store) (review : Review) :
  reviews s !! id = Some review →
  (succeeded (delete_review u id s).1 = true ↔ r_userId review = c_id u) ∧
  (succeeded (delete_review u id s).1 = true →
     reviews (delete_review u id s).2 = delete id (reviews s) ∧
     orders (delete_review u id s).2 = orders s) ∧
  (r_userId review ≠ c_id u →
     (delete_review u id s).1 = Err 403 "Access denied. You are not the owner.") ∧
  (succeeded (delete_review u id s).1 = false → (delete_review u id s).2 = s).
Proof.
  intros Hr. unfold delete_review. rewrite Hr.
  case_decide; simpl; repeat split; intros; try done.
Qed.

Lemma delete_review_spec_witness :
  reviews reviewed_store !! 0 = Some (mkReview 10 2 1 4 "good" RT_product) ∧
  succeeded (delete_review buyer2 0 reviewed_store).1 = true ∧
  (delete_review seller1 0 reviewed_store).1
    = Err 403 "Access denied. You are not the owner.".
Proof.
  split; [reflexivity|].
  pose proof (delete_review_spec buyer2 0 reviewed_store
                (mkReview 10 2 1 4 "good" RT_product) eq_refl) as (H1 & _).
  pose proof (delete_review_spec seller1 0 reviewed_store
                (mkReview 10 2 1 4 "good" RT_product) eq_refl) as (_ & _ & H2 & _).
  split; [by apply H1 | apply H2; simpl; lia].
Defined.

Lemma handle_keeps_foreign_review (rq : Request) (s : Store) (id : nat) (r : Review) :
  reviews s !! id = Some r →
  c_role rq.1 ≠ R_admin → c_id rq.1 ≠ r_userId r →
  reviews (handle rq s).2 !! id = Some r.
Proof.
  intros Hr Hadmin Hau. destruct rq as [u op]. simpl in Hadmin, Hau.
  destruct op; simpl; unfold_handlers; unfold isAdmin; handler_cases; try done.
  - rewrite lookup_insert_ne by (by eapply new_id_ne). done.
  - rewrite lookup_alter_ne; [done|]. intros ->. congruence.
  - rewrite lookup_alter_ne; [done|]. intros ->. congruence.
  - rewrite lookup_delete_ne; [done|]. intros ->. congruence.
Qed.

(** X19.  A review can be edited or removed only by its author or by an
    admin: along any sequence of requests from callers who are neither,
    the stored review does not change. *)
Theorem only_author_or_admin_changes_review (s : Store) (rqs : list Request)
    (id : nat) (r : Review) :
  reviews s !! id = Some r →
  Forall (λ rq, c_role rq.1 ≠ R_admin ∧ c_id rq.1 ≠ r_userId r) rqs →
  reviews (run rqs s) !! id = Some r.
Proof.
  intros Hr Hrqs. induction rqs as [|rq rqs IH] using rev_ind; [done|].
  apply Forall_app in Hrqs as [Hrqs Hrq]. rewrite Forall_singleton in Hrq.
  rewrite run_snoc. destruct Hrq. apply handle_keeps_foreign_review; auto.
Qed.

Lemma only_author_or_admin_changes_review_witness :
  reviews reviewed_store !! 0 = Some (mkReview 10 2 1 4 "good" RT_product) ∧
  reviews (run [ (seller1, DeleteReview 0); (buyer3, UpdateReview 0 (Some 1%Z) None);
                 (seller1, AdminDeleteReview 0) ] reviewed_store) !! 0
    = Some (mkReview 10 2 1 4 "good" RT_product).
Proof.
  split; [reflexivity|].
  apply (only_author_or_admin_changes_review reviewed_store
           [ (seller1, DeleteReview 0); (buyer3, UpdateReview 0 (Some 1%Z) None);
             (seller1, AdminDeleteReview 0) ] 0
           (mkReview 10 2 1 4 "good" RT_product)); [reflexivity|].
  repeat constructor; simpl; (discriminate || lia).
Defined.

(** ** Aggregates under all the routes *)

(** A request that leaves the reviews alone and rewrites products and
    users only outside their ratings keeps the aggregates consistent. *)
Lemma ratings_frame (s s' : Store) :
  reviews s' = reviews s →
  (∀ id p', products s' !! id = Some p' →
     ∃ p, products s !! id = Some p ∧ p_ratings p' = p_ratings p) →
  (∀ id x', users s' !! id = Some x' →
     ∃ x, users s !! id = Some x ∧ u_ratings x' = u_ratings x) →
  ratings_consistent s → ratings_consistent s'.
Proof.
  intros Hrev Hprod Huser [Hp Hu]. split.
  - intros id p' Hl. destruct (Hprod _ _ Hl) as (p & Hp0 & ->).
    rewrite Hrev. by apply Hp.
  - intros id x' Hl. destruct (Huser _ _ Hl) as (x & Hx0 & ->).
    rewrite Hrev. by apply Hu.
Qed.

Lemma admin_delete_review_consistent (u : Caller) (id : nat) (s : Store) :
  ratings_consistent s → ratings_consistent (admin_delete_review u id s).2.
Proof.
  intros Hinv. unfold admin_delete_review.
  repeat (first [ case_decide | case_match ]); simpl; try done.
  apply (recompute_consistent s (delete id (reviews s))); [done|..];
    intros k Hk; (erewrite (ratings_by_delete _ k id _ (reviews s)); [|done]);
    by rewrite decide_False by congruence.
Qed.

Lemma recomputing_request_consistent (rq : Request) (s : Store) :
  recomputing_request rq → ratings_consistent s → ratings_consistent (handle rq s).2.
Proof.
  destruct rq as [u op]. intros Hrq Hinv.
  destruct op; simpl in *; try done;
    try (by apply create_review_consistent);
    try (by apply update_review_consistent);
    try (by apply delete_review_consistent);
    try (by apply admin_delete_review_consistent).
  all: unfold_handlers; handler_cases; try done.
  all: apply (ratings_frame s); [done| |by eauto|done]; simpl.
  all: intros id' p' Hl.
  all: first
    [ by eauto
    | apply lookup_insert_Some in Hl as [[<- <-]|[_ Hl]]; by eauto
    | apply lookup_alter_Some in Hl as [[<- (p0 & Hl & ->)]|[_ Hl]]; by eauto
    | apply lookup_delete_Some in Hl as [_ Hl]; by eauto ].
Qed.

(** X13.  Start from a store whose rating aggregates are consistent.  Any
    sequence of requests to these fourteen routes keeps every stored
    product's and every stored user's ratings equal to the aggregate of
    the reviews naming it: purchase, confirm-purchase, cancel-purchase,
    the seller's product deletion (route and controller), the four order
    routes, review create, update and delete, the admin product status
    and the admin review deletion.  The listing, order, deletion and
    status routes never touch ratings or reviews, and the admin review
    deletion recomputes like the author's.  Nothing is said of the other
    routes. *)
Theorem aggregates_stay_consistent (s : Store) (rqs : list Request) :
  ratings_consistent s →
  Forall recomputing_request rqs →
  (∀ id p, products (run rqs s) !! id = Some p →
     p_ratings p = aggregate (ratings_by r_productId id (reviews (run rqs s)))) ∧
  (∀ id x, users (run rqs s) !! id = Some x →
     u_ratings x = aggregate (ratings_by r_sellerId id (reviews (run rqs s)))).
Proof.
  intros Hinv Hrqs. change (ratings_consistent (run rqs s)).
  induction rqs as [|rq rqs IH] using rev_ind; [done|].
  apply Forall_app in Hrqs as [Hrqs Hrq]. rewrite Forall_singleton in Hrq.
  rewrite run_snoc. apply recomputing_request_consistent; auto.
Qed.

Lemma aggregates_stay_consistent_witness :
  ratings_consistent listed_store ∧
  Forall recomputing_request
    [ (buyer2, Purchase 10); (buyer2, ConfirmPurchase 10);
      (buyer2, CreateReview 10 4 "good" RT_product);
      (admin9, AdminSetProductStatus 10 P_suspended);
      (admin9, AdminDeleteReview 0) ] ∧
  ∀ id p,
    products (run [ (buyer2, Purchase 10); (buyer2, ConfirmPurchase 10);
                    (buyer2, CreateReview 10 4 "good" RT_product);
                    (admin9, AdminSetProductStatus 10 P_suspended);
                    (admin9, AdminDeleteReview 0) ] listed_store) !! id = Some p →
    p_ratings p = aggregate (ratings_by r_productId id
      (reviews (run [ (buyer2, Purchase 10); (buyer2, ConfirmPurchase 10);
                      (buyer2, CreateReview 10 4 "good" RT_product);
                      (admin9, AdminSetProductStatus 10 P_suspended);
                      (admin9, AdminDeleteReview 0) ] listed_store))).
Proof.
  assert (H1 : ratings_consistent listed_store)
    by (apply (bool_decide_unpack _); vm_compute; exact I).
  assert (H2 : Forall recomputing_request
    [ (buyer2, Purchase 10); (buyer2, ConfirmPurchase 10);
      (buyer2, CreateReview 10 4 "good" RT_product);
      (admin9, AdminSetProductStatus 10 P_suspended);
      (admin9, AdminDeleteReview 0) ]) by (repeat constructor).
  split; [exact H1|]. split; [exact H2|].
  exact (proj1 (aggregates_stay_consistent listed_store _ H1 H2)).
Defined.

Lemma ratings_by_filter_other (key : Review → nat) (k id : nat) (m : gmap nat Review) :
  k ≠ id →
  ratings_by key k (filter (λ kv, key kv.2 ≠ id) m) = ratings_by key k m.
Proof.
  intros Hk. unfold ratings_by. do 3 f_equal.
  apply map_filter_strong_ext_1. intros i x. simpl.
  rewrite map_lookup_filter_Some. simpl. split; [tauto|].
  intros [Hkey Hx]. repeat split; congruence.
Qed.

(** X14.  DELETE /admin/products/:id succeeds exactly for an admin on a
    stored product.  It then removes the product together with every
    review naming it and touches neither users nor orders, so no review
    of a deleted product is left behind, while the aggregates of the
    remaining products stay consistent (the seller's aggregate is not
    recomputed).  Failures change nothing. *)
Theorem admin_delete_product_spec (u : Caller) (id : nat) (s : Store) :
  (succeeded (admin_delete_product u id s).1 = true ↔
     c_role u = R_admin ∧ is_Some (products s !! id)) ∧
  (succeeded (admin_delete_product u id s).1 = true →
     products (admin_delete_product u id s).2 = delete id (products s) ∧
     (∀ j r, reviews (admin_delete_product u id s).2 !! j = Some r ↔
             reviews s !! j = Some r ∧ r_productId r ≠ id) ∧
     users (admin_delete_product u id s).2 = users s ∧
     orders (admin_delete_product u id s).2 = orders s) ∧
  (ratings_consistent s →
     ∀ k p, products (admin_delete_product u id s).2 !! k = Some p →
       p_ratings p =
         aggregate (ratings_by r_productId k (reviews (admin_delete_product u id s).2))) ∧
  (succeeded (admin_delete_product u id s).1 = false →
     (admin_delete_product u id s).2 = s).
Proof.
  unfold admin_delete_product, isAdmin.
  case_bool_decide as Hadm; simpl.
  2: { repeat split; try done; [intros [? _]; done | intros [Hp _]; by apply Hp]. }
  destruct (products s !! id) as [p0|] eqn:Hp0; simpl.
  2: { repeat split; try done; [intros [_ [? ?]]; done | intros [Hp _]; by apply Hp]. }
  split; [split; [eauto | done]|]. split; [|split; [|done]].
  - intros _. split; [done|]. split; [|done].
    intros j r. by rewrite map_lookup_filter_Some.
  - intros [Hp _] k p [Hne Hk]%lookup_delete_Some.
    rewrite ratings_by_filter_other by done. by apply Hp.
Qed.

(** ** Ratings stay in range *)

Lemma handle_keeps_ratings_in_range (rq : Request) (s : Store) :
  ratings_in_range s → ratings_in_range (handle rq s).2.
Proof.
  intros Hinv. destruct rq as [u op].
  destruct op; simpl; unfold_handlers; handler_cases; try done.
  all: intros id' r' Hl; simpl in Hl.
  all: first
    [ apply lookup_insert_Some in Hl as [[<- <-]|[_ Hl]];
      [simpl | by eapply Hinv]
    | apply lookup_alter_Some in Hl as [[<- (r0 & Hl & ->)]|[_ Hl]];
      [pose proof (Hinv _ _ Hl) | by eapply Hinv]
    | apply lookup_delete_Some in Hl as [_ Hl]; by eapply Hinv
    | apply map_lookup_filter_Some in Hl as [Hl _]; by eapply Hinv ].
  all: repeat match goal with
       | H : negb _ = false |- _ => apply negb_false_iff in H
       | H : _ && _ = true |- _ => apply andb_true_iff in H as [? ?]
       | H : valid_rating _ = true |- _ => apply bool_decide_eq_true in H
       end.
  all: try done.
  all: destruct comment; simpl in *; try done.
  all: repeat match goal with
       | H : valid_rating _ = true |- _ => apply bool_decide_eq_true in H
       end; done.
Qed.

Lemma mean_in_range (l : list Z) :
  l ≠ [] → Forall (λ x, 1 ≤ x ≤ 5)%Z l → (1 <= mean l <= 5)%Q.
Proof.
  intros Hne Hall. unfold mean.
  assert (Hlen : 0 < length l) by (destruct l; [done | simpl; lia]).
  rewrite decide_True by done.
  assert (Hsum : (Z.of_nat (length l) ≤ foldr Z.add 0 l ≤ 5 * Z.of_nat (length l))%Z).
  { clear Hne Hlen. induction Hall as [|x l Hx Hall IH]; simpl; [lia|]. lia. }
  assert (Hpos : (0 < inject_Z (Z.of_nat (length l)))%Q).
  { rewrite <- (Zlt_Qlt 0). lia. }
  split.
  - apply Qle_shift_div_l; [done|]. rewrite Qmult_1_l, <- Zle_Qle. lia.
  - apply Qle_shift_div_r; [done|].
    change 5%Q with (inject_Z 5). rewrite <- inject_Z_mult, <- Zle_Qle. lia.
Qed.

(** X15.  Start from a store in which every review carries a rating from
    1 to 5.  After any sequence of requests every stored review still
    does, and for every product and every seller the aggregate the
    handlers compute from the stored reviews is either count 0 with
    average 0 or a positive count with an average from 1 to 5. *)
Theorem averages_stay_in_range (s : Store) (rqs : list Request) (k : nat) :
  ratings_in_range s →
  (∀ id r, reviews (run rqs s) !! id = Some r → (1 ≤ r_rating r ≤ 5)%Z) ∧
  rating_in_range
    (computed_ratings (find_reviews (λ r, r_productId r = k) (run rqs s))) ∧
  rating_in_range
    (computed_ratings (find_reviews (λ r, r_sellerId r = k) (run rqs s))).
Proof.
  intros Hinv.
  assert (Hrun : ratings_in_range (run rqs s)).
  { induction rqs as [|rq rqs IH] using rev_ind; [done|].
    rewrite run_snoc. by apply handle_keeps_ratings_in_range. }
  split; [exact Hrun|].
  assert (Hfound : ∀ (P : Review → Prop) `{!∀ r, Decision (P r)},
            rating_in_range (computed_ratings (find_reviews P (run rqs s)))).
  { intros P HP.
    assert (Hall : Forall (λ x, 1 ≤ x ≤ 5)%Z
                     (r_rating <$> find_reviews P (run rqs s))).
    { apply Forall_fmap, Forall_forall. intros r Hr. simpl.
      unfold find_reviews in Hr.
      apply list_elem_of_fmap in Hr as ([i r0] & -> & Hin).
      apply elem_of_map_to_list, map_lookup_filter_Some in Hin as [Hin _].
      by eapply Hrun. }
    rewrite computed_ratings_aggregate. unfold rating_in_range, aggregate; simpl.
    rewrite length_fmap. destruct (find_reviews P (run rqs s)) as [|r rs'].
    - left. by split.
    - right. split; [simpl; lia|]. by apply mean_in_range. }
  split; apply Hfound.
Qed.

Lemma averages_stay_in_range_witness :
  ratings_in_range listed_store ∧
  ∀ id r,
    reviews (run [ (buyer2, Purchase 10); (buyer2, ConfirmPurchase 10);
                   (buyer2, CreateReview 10 4 "good" RT_product);
                   (buyer2, UpdateReview 0 (Some 9%Z) None) ] listed_store) !! id
      = Some r →
    (1 ≤ r_rating r ≤ 5)%Z.
Proof.
  assert (H : ratings_in_range listed_store).
  { intros id r Hr. simpl in Hr. rewrite lookup_empty in Hr. discriminate. }
  split; [exact H|].
  exact (proj1 (averages_stay_in_range listed_store
                  [ (buyer2, Purchase 10); (buyer2, ConfirmPurchase 10);
                    (buyer2, CreateReview 10 4 "good" RT_product);
                    (buyer2, UpdateReview 0 (Some 9%Z) None) ] 10 H)).
Defined.

(** ** Accounts and authority *)

(** X16.  Every admin route (user deletion through either route, user
    role, product status, product deletion, review deletion) answers a
    caller whose role is not admin with 403 'Access denied. Admin role
    required.' and leaves the store as it was. *)
Theorem admin_routes_refuse_non_admins (u : Caller) (id : nat) (role : Role)
    (status : ProductStatus) (s : Store) :
  c_role u ≠ R_admin →
  admin_delete_user u id s = (Err 403 "Access denied. Admin role required.", s) ∧
  delete_user_account u id s = (Err 403 "Access denied. Admin role required.", s) ∧
  admin_set_user_role u id role s = (Err 403 "Access denied. Admin role required.", s) ∧
  admin_set_product_status u id status s
    = (Err 403 "Access denied. Admin role required.", s) ∧
  admin_delete_product u id s = (Err 403 "Access denied. Admin role required.", s) ∧
  admin_delete_review u id s = (Err 403 "Access denied. Admin role required.", s).
Proof.
  intros Hrole.
  unfold admin_delete_user, delete_user_account, admin_set_user_role,
    admin_set_product_status, admin_delete_product, admin_delete_review, isAdmin.
  by rewrite bool_decide_eq_false_2.
Qed.

Lemma admin_routes_refuse_non_admins_witness :
  c_role seller1 ≠ R_admin ∧
  admin_delete_user seller1 2 reviewed_store
    = (Err 403 "Access denied. Admin role required.", reviewed_store) ∧
  admin_delete_review seller1 0 reviewed_store
    = (Err 403 "Access denied. Admin role required.", reviewed_store).
Proof.
  assert (H : c_role seller1 ≠ R_admin) by discriminate.
  split; [exact H|].
  destruct (admin_routes_refuse_non_admins seller1 2 R_buyer P_available reviewed_store H)
    as (H1 & _).
  destruct (admin_routes_refuse_non_admins seller1 0 R_buyer P_available reviewed_store H)
    as (_ & _ & _ & _ & _ & H6).
  split; [exact H1 | exact H6].
Defined.

Lemma handle_keeps_account (rq : Request) (s : Store) (id : nat) (x : User) :
  users s !! id = Some x →
  c_role rq.1 ≠ R_admin ∨ (u_role x = R_admin ∧ c_id rq.1 ≠ id) →
  ∃ x', users (handle rq s).2 !! id = Some x' ∧ u_role x' = u_role x.
Proof.
  intros Hx Hwho. destruct rq as [u op]. simpl in Hwho.
  assert (Hstay : ∃ x', users s !! id = Some x' ∧ u_role x' = u_role x) by eauto.
  destruct op; simpl; unfold_handlers; unfold isAdmin; handler_cases; try done.
  all: try (destruct Hwho as [?|[? ?]]; done).
  all: try (rewrite lookup_alter; case_decide; subst; rewrite ?Hx; simpl; by eauto).
  all: destruct Hwho as [?|[Hadm Hne]]; try done.
  all: destruct (decide (userId = id)) as [->|Hother];
    [simplify_eq; by destruct_and? | rewrite lookup_delete_ne by done; eauto].
Qed.

(** X17.  Only an admin can remove a user account.  Along any sequence
    of requests from callers whose role is not admin, to any of the
    sixteen dispatched routes, to PUT /admin/users/:id/role or to DELETE
    /api/users/:id, a stored account stays stored.  (Nothing is said of
    its role or ratings: other routes rewrite those.) *)
Theorem only_admins_remove_accounts (s : Store) (rqs : list (Caller * AnyOp))
    (id : nat) (x : User) :
  users s !! id = Some x →
  Forall (λ rq, c_role rq.1 ≠ R_admin) rqs →
  is_Some (users (serve_all rqs s) !! id).
Proof.
  intros Hx Hrqs. induction rqs as [|rq rqs IH] using rev_ind; [by eexists|].
  apply Forall_app in Hrqs as [Hrqs Hrq]. rewrite Forall_singleton in Hrq.
  destruct (IH Hrqs) as [x1 Hx1].
  unfold serve_all in *. rewrite fold_left_app. simpl.
  destruct rq as [u [op|[uid role|uid]]]; unfold serve; simpl in *.
  - destruct (handle_keeps_account (u, op) _ id x1 Hx1) as (x2 & Hx2 & _);
      [by left | by eexists].
  - unfold admin_set_user_role, isAdmin.
    rewrite bool_decide_eq_false_2 by done. by eexists.
  - unfold delete_user_account, isAdmin.
    rewrite bool_decide_eq_false_2 by done. by eexists.
Qed.

Lemma only_admins_remove_accounts_witness :
  users reviewed_store !! 1 = Some (mkUser R_seller (mkRatings 4%Q 1)) ∧
  Forall (λ rq : Caller * AnyOp, c_role rq.1 ≠ R_admin)
    [ (buyer2, Account (DeleteUserAccount 1));
      (buyer3, Dispatched (AdminDeleteUser 1));
      (buyer2, Dispatched (DeleteReview 0));
      (seller1, Account (SetUserRole 1 R_admin)) ] ∧
  is_Some (users (serve_all
                    [ (buyer2, Account (DeleteUserAccount 1));
                      (buyer3, Dispatched (AdminDeleteUser 1));
                      (buyer2, Dispatched (DeleteReview 0));
                      (seller1, Account (SetUserRole 1 R_admin)) ]
                    reviewed_store) !! 1).
Proof.
  assert (H : Forall (λ rq : Caller * AnyOp, c_role rq.1 ≠ R_admin)
    [ (buyer2, Account (DeleteUserAccount 1));
      (buyer3, Dispatched (AdminDeleteUser 1));
      (buyer2, Dispatched (DeleteReview 0));
      (seller1, Account (SetUserRole 1 R_admin)) ]).
  { repeat (constructor; [discriminate|]). constructor. }
  split; [reflexivity|]. split; [exact H|].
  apply (only_admins_remove_accounts reviewed_store _ 1
           (mkUser R_seller (mkRatings 4%Q 1))); [reflexivity | exact H].
Defined.

Lemma handle_keeps_foreign_product (rq : Request) (s : Store) (id : nat) (p : Product) :
  products s !! id = Some p →
  c_role rq.1 ≠ R_admin → c_id rq.1 ≠ p_sellerId p →
  ∃ p', products (handle rq s).2 !! id = Some p' ∧ p_sellerId p' = p_sellerId p.
Proof.
  intros Hp Hadm Hown. destruct rq as [u op]. simpl in Hadm, Hown.
  assert (Hstay : ∃ p', products s !! id = Some p' ∧ p_sellerId p' = p_sellerId p)
    by eauto.
  destruct op; simpl; unfold_handlers; unfold isAdmin; handler_cases; try done.
  all: try (rewrite lookup_alter; case_decide; subst; rewrite ?Hp; simpl; by eauto).
  all: try (rewrite lookup_insert; case_decide; subst; simplify_eq; simpl; by eauto).
  all: rewrite lookup_delete_ne; [done|]; intros ->; simplify_eq; congruence.
Qed.

(** X18.  A product can be removed only by its seller or by an admin, and
    its seller never changes: along any sequence of requests from callers
    who are neither, the product stays stored under the same seller. *)
Theorem only_seller_or_admin_removes_product (s : Store) (rqs : list Request)
    (id : nat) (p : Product) :
  products s !! id = Some p →
  Forall (λ rq, c_role rq.1 ≠ R_admin ∧ c_id rq.1 ≠ p_sellerId p) rqs →
  ∃ p', products (run rqs s) !! id = Some p' ∧ p_sellerId p' = p_sellerId p.
Proof.
  intros Hp Hrqs. induction rqs as [|rq rqs IH] using rev_ind; [eauto|].
  apply Forall_app in Hrqs as [Hrqs Hrq]. rewrite Forall_singleton in Hrq.
  destruct (IH Hrqs) as (p1 & Hp1 & Hs1). rewrite run_snoc.
  destruct Hrq as [Hadm Hown].
  destruct (handle_keeps_foreign_product rq _ _ _ Hp1 Hadm) as (p2 & Hp2 & Hs2);
    [congruence|].
  exists p2. split; [done | congruence].
Qed.

Lemma only_seller_or_admin_removes_product_witness :
  products listed_store !! 10 = Some (mkProduct 1 100%Q P_available None default_ratings) ∧
  ∃ p', products (run [ (mkCaller 2 R_seller, DeleteProductRoute 10);
                        (buyer3, DeleteProductController 10);
                        (buyer2, AdminDeleteProduct 10) ] listed_store) !! 10 = Some p' ∧
        p_sellerId p' = p_sellerId (mkProduct 1 100%Q P_available None default_ratings).
Proof.
  split; [reflexivity|].
  apply (only_seller_or_admin_removes_product listed_store
           [ (mkCaller 2 R_seller, DeleteProductRoute 10);
             (buyer3, DeleteProductController 10);
             (buyer2, AdminDeleteProduct 10) ] 10
           (mkProduct 1 100%Q P_available None default_ratings)); [reflexivity|].
  repeat constructor; simpl; (discriminate || lia).
Defined.

(** X20.  For a stored user, DELETE /api/users/:id succeeds exactly when
    the caller is an admin, the account is not the caller's own and is not
    an admin account.  It then removes the user, the products the user
    sells, and the reviews the user wrote or received as seller, and
    leaves orders alone.  An admin's own account is answered 400, another
    admin's 403.  Failures change nothing. *)
Theorem delete_user_account_spec (u : Caller) (userId : nat) (s : Store) (user : User) :
  users s !! userId = Some user →
  (succeeded (delete_user_account u userId s).1 = true ↔
     c_role u = R_admin ∧ userId ≠ c_id u ∧ u_role user ≠ R_admin) ∧
  (succeeded (delete_user_account u userId s).1 = true →
     users (delete_user_account u userId s).2 = delete userId (users s) ∧
     (∀ id p, products (delete_user_account u userId s).2 !! id = Some p ↔
              products s !! id = Some p ∧ p_sellerId p ≠ userId) ∧
     (∀ id r, reviews (delete_user_account u userId s).2 !! id = Some r ↔
              reviews s !! id = Some r ∧ r_userId r ≠ userId ∧ r_sellerId r ≠ userId) ∧
     orders (delete_user_account u userId s).2 = orders s) ∧
  (c_role u = R_admin → userId = c_id u →
     (delete_user_account u userId s).1 = Err 400 "Cannot delete your own account") ∧
  (c_role u = R_admin → userId ≠ c_id u → u_role user = R_admin →
     (delete_user_account u userId s).1 = Err 403 "Cannot delete admin users") ∧
  (succeeded (delete_user_account u userId s).1 = false →
     (delete_user_account u userId s).2 = s).
Proof.
  intros Hx. unfold delete_user_account, isAdmin. rewrite Hx.
  case_bool_decide; repeat case_decide; simpl;
    (split; [split; [try done | try (intros (? & ? & ?); done)]|]);
    (split; [try done|repeat split; intros; try done; try congruence]).
  intros _. split; [done|]. split; [|split; [|done]].
  - intros id p. by rewrite map_lookup_filter_Some.
  - intros id r. rewrite !map_lookup_filter_Some. simpl. tauto.
Qed.

Lemma delete_user_account_spec_witness :
  users reviewed_store !! 1 = Some (mkUser R_seller (mkRatings 4%Q 1)) ∧
  succeeded (delete_user_account admin9 1 reviewed_store).1 = true ∧
  reviews (delete_user_account admin9 1 reviewed_store).2 = ∅ ∧
  products (delete_user_account admin9 1 reviewed_store).2 = ∅.
Proof.
  split; [reflexivity|].
  pose proof (delete_user_account_spec admin9 1 reviewed_store
                (mkUser R_seller (mkRatings 4%Q 1)) eq_refl) as (Hok & _).
  split; [apply Hok; repeat split; (discriminate || (simpl; lia))|].
  split; vm_compute; reflexivity.
Defined.

(** ** Notification service *)

Lemma splice_out_head (n : Notification) (l : list Notification) :
  splice_out (n :: l) n = l.
Proof. unfold splice_out. simpl. by rewrite decide_True. Qed.

Lemma splice_out_skip (m n : Notification) (l : list Notification) :
  m ≠ n → splice_out (m :: l) n = m :: splice_out l n.
Proof.
  intros Hne. unfold splice_out. simpl. rewrite decide_False by done.
  by destruct (indexOf n l).
Qed.

Lemma fold_splice_out_skip (m : Notification) (toRemove l : list Notification) :
  m ∉ toRemove →
  fold_left splice_out toRemove (m :: l) = m :: fold_left splice_out toRemove l.
Proof.
  revert l. induction toRemove as [|n toRemove IH]; intros l Hm; [done|].
  apply not_elem_of_cons in Hm as [Hne Hm]. simpl.
  rewrite splice_out_skip by done. by apply IH.
Qed.

(** Splicing out the first [k] notifications of a user, one [indexOf] at
    a time, takes exactly the user's [k] oldest out of the array. *)
Lemma fold_splice_out_evict (k userId : nat) (l : list Notification) :
  fold_left splice_out (take k (filter (λ n, n_userId n = userId) l)) l
  = evict k userId l.
Proof.
  revert k. induction l as [|m l IH]; intros k.
  - by destruct k.
  - rewrite filter_cons. destruct (decide (n_userId m = userId)) as [Hm|Hm].
    + destruct k as [|k]; simpl; [done|].
      rewrite decide_True by done. rewrite splice_out_head. apply IH.
    + rewrite fold_splice_out_skip.
      * rewrite IH. destruct k; simpl; [by destruct l|by rewrite decide_False].
      * intros (i & Hin%list_elem_of_lookup_2%list_elem_of_filter & _)%elem_of_take. tauto.
Qed.

Lemma evict_app (k userId : nat) (l : list Notification) (n : Notification) :
  (k ≤ count_for userId l)%nat →
  evict k userId (l ++ [n])%list = (evict k userId l ++ [n])%list.
Proof.
  unfold count_for. revert k. induction l as [|m l IH]; intros k Hk.
  - simpl in Hk. by replace k with 0 by lia.
  - destruct k as [|k]; [done|]. rewrite filter_cons in Hk. simpl.
    destruct (decide (n_userId m = userId)); simpl in *.
    + apply IH. lia.
    + f_equal. apply IH. lia.
Qed.

Lemma count_for_evict (k userId : nat) (l : list Notification) :
  count_for userId (evict k userId l) = count_for userId l - k.
Proof.
  unfold count_for. revert k. induction l as [|m l IH]; intros k.
  - by destruct k.
  - destruct k as [|k]; [simpl; lia|]. simpl evict. rewrite !filter_cons.
    destruct (decide (n_userId m = userId)) as [Hm|Hm]; simpl.
    + rewrite IH. lia.
    + rewrite filter_cons, decide_False by done. apply IH.
Qed.

Lemma filter_evict_other (k userId other : nat) (l : list Notification) :
  other ≠ userId →
  filter (λ n, n_userId n = other) (evict k userId l)
  = filter (λ n, n_userId n = other) l.
Proof.
  intros Hne. revert k. induction l as [|m l IH]; intros k.
  - by destruct k.
  - destruct k as [|k]; [done|]. simpl evict. rewrite !filter_cons.
    destruct (decide (n_userId m = userId)) as [Hm|Hm]; simpl.
    + rewrite decide_False by congruence. apply IH.
    + rewrite filter_cons. case_decide; by rewrite IH.
Qed.

Lemma filter_user_snoc (userId : nat) (l : list Notification) (n : Notification) :
  filter (λ m, n_userId m = userId) (l ++ [n])%list
  = (filter (λ m, n_userId m = userId) l
       ++ if decide (n_userId n = userId) then [n] else [])%list.
Proof. rewrite filter_app, filter_cons, filter_nil. done. Qed.

Lemma addNotification_evicts (userId : nat) (message type : string)
    (now createdAt : nat) (notifications : list Notification) :
  addNotification userId message type now createdAt notifications
  = (mkNotification now userId message type false createdAt,
     (evict (S (count_for userId notifications) - 100) userId notifications
        ++ [mkNotification now userId message type false createdAt])%list).
Proof.
  unfold addNotification.
  set (notification := mkNotification now userId message type false createdAt).
  assert (Hlen : length (filter (λ n, n_userId n = userId)
                           (notifications ++ [notification])%list)
                 = S (count_for userId notifications)).
  { unfold count_for. rewrite filter_user_snoc, length_app.
    rewrite decide_True by done. simpl. lia. }
  rewrite Hlen. case_decide as Hover.
  - rewrite fold_splice_out_evict. f_equal. apply evict_app. lia.
  - replace (S (count_for userId notifications) - 100) with 0 by lia.
    by destruct notifications.
Qed.

Lemma count_for_addNotification (userId : nat) (message type : string)
    (now createdAt : nat) (notifications : list Notification) :
  count_for userId (addNotification userId message type now createdAt notifications).2
  = S (count_for userId notifications) `min` 100.
Proof.
  rewrite addNotification_evicts. cbn [snd].
  pose proof (count_for_evict (S (count_for userId notifications) - 100)
                userId notifications) as Hcount.
  unfold count_for in *. rewrite filter_user_snoc, length_app.
  rewrite decide_True by done. cbn [length]. lia.
Qed.

Lemma filter_addNotification_other (userId other : nat) (message type : string)
    (now createdAt : nat) (notifications : list Notification) :
  other ≠ userId →
  filter (λ n, n_userId n = other)
    (addNotification userId message type now createdAt notifications).2
  = filter (λ n, n_userId n = other) notifications.
Proof.
  intros Hne. rewrite addNotification_evicts. cbn [snd].
  rewrite filter_user_snoc.
  rewrite decide_False by (simpl; congruence).
  rewrite app_nil_r. by apply filter_evict_other.
Qed.

(** X21.  addNotification returns an unread notification for the user
    and appends it to the array; when the user then holds more than 100
    notifications, the oldest of that user are taken out, so the user
    ends up with min(before + 1, 100).  The new notification is always
    the last element, and the notifications of every other user stay as
    they were, in the same order. *)
Theorem addNotification_effect (userId : nat) (message type : string)
    (now createdAt : nat) (notifications : list Notification) :
  let notification := mkNotification now userId message type false createdAt in
  addNotification userId message type now createdAt notifications
    = (notification,
       (evict (S (count_for userId notifications) - 100) userId notifications
          ++ [notification])%list) ∧
  count_for userId (addNotification userId message type now createdAt notifications).2
    = S (count_for userId notifications) `min` 100 ∧
  ∀ other, other ≠ userId →
    filter (λ n, n_userId n = other)
      (addNotification userId message type now createdAt notifications).2
    = filter (λ n, n_userId n = other) notifications.
Proof.
  intros notification. split; [apply addNotification_evicts|].
  split; [apply count_for_addNotification|].
  intros other Hne. by apply filter_addNotification_other.
Qed.

Lemma count_for_insert (other i : nat) (n x : Notification) (l : list Notification) :
  l !! i = Some n → n_userId x = n_userId n →
  filter (λ m, n_userId m = other) (<[i := x]> l) =
    if decide (n_userId n = other)
    then <[length (filter (λ m, n_userId m = other) (take i l)) := x]>
           (filter (λ m, n_userId m = other) l)
    else filter (λ m, n_userId m = other) l.
Proof.
  revert i. induction l as [|m l IH]; intros i Hi Hu; [done|].
  destruct i as [|i]; simpl in *.
  - simplify_eq. rewrite !filter_cons, Hu. by case_decide.
  - rewrite !filter_cons, (IH _ Hi Hu).
    destruct (decide (n_userId n = other)), (decide (n_userId m = other)); done.
Qed.

Lemma markAsRead_found (userId notificationId : nat) (notifications : list Notification) :
  (markAsRead userId notificationId notifications).1 = true →
  ∃ i n, notifications !! i = Some n ∧
         n_id n = notificationId ∧ n_userId n = userId ∧
         (∀ j m, j < i → notifications !! j = Some m →
            ¬ (n_id m = notificationId ∧ n_userId m = userId)) ∧
         (markAsRead userId notificationId notifications).2
           = <[i := set_n_read true n]> notifications.
Proof.
  unfold markAsRead.
  destruct (list_find _ notifications) as [[i n]|] eqn:Hfind; simpl; [|done].
  intros _. apply list_find_Some in Hfind as (Hi & [Hid Hu] & Hfirst).
  exists i, n. repeat split; try done. intros j m Hj Hm. by eapply Hfirst.
Qed.

Lemma filter_markAsRead_other (userId notificationId other : nat)
    (notifications : list Notification) :
  other ≠ userId →
  filter (λ n, n_userId n = other) (markAsRead userId notificationId notifications).2
  = filter (λ n, n_userId n = other) notifications.
Proof.
  intros Hne.
  destruct (markAsRead userId notificationId notifications).1 eqn:Hres.
  - destruct (markAsRead_found _ _ _ Hres) as (i & n & Hi & _ & Hu & _ & ->).
    rewrite (count_for_insert other i n) by done.
    rewrite decide_False by congruence. done.
  - revert Hres. unfold markAsRead.
    by destruct (list_find _ notifications) as [[i n]|].
Qed.

Lemma count_for_markAsRead (userId notificationId other : nat)
    (notifications : list Notification) :
  count_for other (markAsRead userId notificationId notifications).2
  = count_for other notifications.
Proof.
  unfold count_for.
  destruct (markAsRead userId notificationId notifications).1 eqn:Hres.
  - destruct (markAsRead_found _ _ _ Hres) as (i & n & Hi & _ & Hu & _ & ->).
    rewrite (count_for_insert other i n) by done.
    case_decide; [by rewrite length_insert | done].
  - revert Hres. unfold markAsRead.
    by destruct (list_find _ notifications) as [[i n]|].
Qed.

Lemma filter_markAllAsRead_other (userId other : nat) (notifications : list Notification) :
  other ≠ userId →
  filter (λ n, n_userId n = other) (markAllAsRead userId notifications)
  = filter (λ n, n_userId n = other) notifications.
Proof.
  intros Hne. unfold markAllAsRead.
  induction notifications as [|m l IH]; [done|]. csimpl.
  rewrite !filter_cons, IH.
  destruct (decide (n_userId m = userId)) as [Hm|Hm]; simpl; [|done].
  by rewrite !decide_False by congruence.
Qed.

Lemma count_for_markAllAsRead (userId other : nat) (notifications : list Notification) :
  count_for other (markAllAsRead userId notifications) = count_for other notifications.
Proof.
  unfold count_for, markAllAsRead.
  induction notifications as [|m l IH]; [done|]. csimpl.
  rewrite !filter_cons.
  destruct (decide (n_userId m = userId)) as [Hm|Hm]; simpl;
    case_decide; simpl; by rewrite IH.
Qed.

(** X22.  The cap holds across the service: if no user holds more than
    100 notifications (as in the empty array the process starts with),
    then after any sequence of addNotification, markAsRead and
    markAllAsRead calls no user does. *)
Theorem notifications_stay_capped (calls : list NotificationCall)
    (notifications : list Notification) :
  (∀ userId, count_for userId notifications ≤ 100)%nat →
  (∀ userId, count_for userId (fold_left (λ ns c, call c ns) calls notifications)
             ≤ 100)%nat.
Proof.
  intros Hcap. induction calls as [|c calls IH] using rev_ind; [done|].
  intros v. rewrite fold_left_app. simpl.
  set (ns := fold_left (λ ns c, call c ns) calls notifications) in *.
  destruct c as [u message type now createdAt | u notificationId | u]; simpl.
  - destruct (decide (v = u)) as [->|Hne].
    + rewrite count_for_addNotification. lia.
    + unfold count_for. rewrite filter_addNotification_other by done. apply IH.
  - rewrite count_for_markAsRead. apply IH.
  - rewrite count_for_markAllAsRead. apply IH.
Qed.

Lemma notifications_stay_capped_witness :
  (∀ userId, count_for userId [] ≤ 100)%nat ∧
  (∀ userId,
     count_for userId
       (fold_left (λ ns c, call c ns)
          [ Add 2 "Order placed" "info" 1000 1000; Add 1 "New order" "info" 1001 1001;
            MarkAsRead 2 1000; MarkAllAsRead 1 ] []) ≤ 100)%nat.
Proof.
  assert (H : (∀ userId, count_for userId [] ≤ 100)%nat)
    by (intros; unfold count_for; rewrite filter_nil; simpl; lia).
  split; [exact H|].
  exact (notifications_stay_capped
           [ Add 2 "Order placed" "info" 1000 1000; Add 1 "New order" "info" 1001 1001;
             MarkAsRead 2 1000; MarkAllAsRead 1 ] [] H).
Defined.

(** X23.  markAsRead answers true exactly when the array holds a
    notification with that id for that user.  It then sets the read flag
    of the first such notification and changes nothing else; when it
    answers false the array is left as it was.  Either way the
    notifications of every other user stay as they were. *)
Theorem markAsRead_effect (userId notificationId : nat)
    (notifications : list Notification) :
  ((markAsRead userId notificationId notifications).1 = true ↔
     ∃ n, n ∈ notifications ∧ n_id n = notificationId ∧ n_userId n = userId) ∧
  ((markAsRead userId notificationId notifications).1 = true →
     ∃ i n, notifications !! i = Some n ∧
            n_id n = notificationId ∧ n_userId n = userId ∧
            (∀ j m, j < i → notifications !! j = Some m →
               ¬ (n_id m = notificationId ∧ n_userId m = userId)) ∧
            (markAsRead userId notificationId notifications).2
              = <[i := mkNotification (n_id n) (n_userId n) (n_message n) (n_type n)
                                      true (n_createdAt n)]> notifications) ∧
  ((markAsRead userId notificationId notifications).1 = false →
     (markAsRead userId notificationId notifications).2 = notifications) ∧
  (∀ other, other ≠ userId →
     filter (λ n, n_userId n = other) (markAsRead userId notificationId notifications).2
     = filter (λ n, n_userId n = other) notifications).
Proof.
  split; [|split; [|split]].
  - split.
    + intros (i & n & Hi & Hid & Hu & _)%markAsRead_found.
      exists n. split; [by eapply list_elem_of_lookup_2 | done].
    + intros (n & Hin & Hid & Hu). unfold markAsRead.
      destruct (list_find _ notifications) as [[i m]|] eqn:Hfind; [done|].
      apply list_find_None in Hfind.
      rewrite Forall_forall in Hfind. by destruct (Hfind n Hin).
  - apply markAsRead_found.
  - unfold markAsRead. by destruct (list_find _ notifications) as [[i n]|].
  - intros other Hne. by apply filter_markAsRead_other.
Qed.

Lemma getUserNotifications_unread_markAll (userId : nat) (notifications : list Notification) :
  filter (λ n, n_read n = false)
    (filter (λ n, n_userId n = userId) (markAllAsRead userId notifications)) = [].
Proof.
  unfold markAllAsRead. induction notifications as [|m l IH]; [done|]. csimpl.
  rewrite filter_cons.
  destruct (decide (n_userId m = userId)) as [Hm|Hm]; simpl.
  - rewrite decide_True by done. rewrite filter_cons. simpl. exact IH.
  - rewrite ?decide_False by done. exact IH.
Qed.

(** X24.  After markAllAsRead the user has no unread notification left
    (the unread-only listing is empty).  Only read flags of that user's
    notifications change: the notifications of every other user stay as
    they were, the array keeps its length, and a second call changes
    nothing more. *)
Theorem markAllAsRead_effect (userId : nat) (notifications : list Notification) :
  getUserNotifications userId true (markAllAsRead userId notifications) = [] ∧
  (∀ other, other ≠ userId →
     filter (λ n, n_userId n = other) (markAllAsRead userId notifications)
     = filter (λ n, n_userId n = other) notifications) ∧
  length (markAllAsRead userId notifications) = length notifications ∧
  set_n_read true <$> markAllAsRead userId notifications
    = set_n_read true <$> notifications ∧
  markAllAsRead userId (markAllAsRead userId notifications)
    = markAllAsRead userId notifications.
Proof.
  split; [|split; [|split; [|split]]].
  - unfold getUserNotifications. by rewrite getUserNotifications_unread_markAll.
  - intros other Hne. by apply filter_markAllAsRead_other.
  - unfold markAllAsRead. apply length_fmap.
  - unfold markAllAsRead. rewrite <- list_fmap_compose.
    apply list_fmap_ext. intros i n _. simpl. by case_decide.
  - unfold markAllAsRead. rewrite <- list_fmap_compose.
    apply list_fmap_ext. intros i n _. simpl.
    destruct (decide (n_userId n = userId)); simpl; [|by rewrite decide_False].
    by rewrite decide_True.
Qed.

Lemma insert_newest_first_perm (n : Notification) (l : list Notification) :
  insert_newest_first n l ≡ₚ n :: l.
Proof.
  induction l as [|m l IH]; simpl; [done|].
  case_decide; [|done]. rewrite IH. apply Permutation_swap.
Qed.

Lemma sort_newest_first_perm (l : list Notification) : sort_newest_first l ≡ₚ l.
Proof.
  unfold sort_newest_first. induction l as [|n l IH]; simpl; [done|].
  by rewrite insert_newest_first_perm, IH.
Qed.

Lemma insert_newest_first_sorted (n : Notification) (l : list Notification) :
  StronglySorted no_older_than l →
  StronglySorted no_older_than (insert_newest_first n l).
Proof.
  induction 1 as [|m l Hsorted IH Hall]; simpl.
  - repeat constructor.
  - case_decide as Hlt.
    + constructor; [done|]. rewrite insert_newest_first_perm.
      constructor; [unfold no_older_than; lia | done].
    + constructor; [by constructor|].
      constructor; [unfold no_older_than; lia|].
      eapply Forall_impl; [exact Hall|]. unfold no_older_than. intros; lia.
Qed.

Lemma sort_newest_first_sorted (l : list Notification) :
  StronglySorted no_older_than (sort_newest_first l).
Proof.
  unfold sort_newest_first. induction l as [|n l IH]; simpl; [constructor|].
  by apply insert_newest_first_sorted.
Qed.

(** X25.  getUserNotifications returns exactly the notifications of the
    user held by the array (only the unread ones when asked), each as
    often as it is held, ordered newest first: every notification is
    followed only by ones created no later.  The array itself is not
    changed by the listing. *)
Theorem getUserNotifications_sorted (userId : nat) (unreadOnly : bool)
    (notifications : list Notification) :
  getUserNotifications userId unreadOnly notifications
    ≡ₚ filter (λ n, n_userId n = userId ∧ (unreadOnly = true → n_read n = false))
         notifications ∧
  (∀ n, n ∈ getUserNotifications userId unreadOnly notifications ↔
        n ∈ notifications ∧ n_userId n = userId ∧
        (unreadOnly = true → n_read n = false)) ∧
  StronglySorted no_older_than
    (getUserNotifications userId unreadOnly notifications).
Proof.
  assert (Hperm : getUserNotifications userId unreadOnly notifications
    ≡ₚ filter (λ n, n_userId n = userId ∧ (unreadOnly = true → n_read n = false))
         notifications).
  { unfold getUserNotifications. rewrite sort_newest_first_perm.
    destruct unreadOnly.
    - rewrite list_filter_filter. erewrite list_filter_iff; [done|].
      intros n. simpl. tauto.
    - erewrite list_filter_iff; [done|]. intros n. simpl. split; [|tauto].
      intros ?. split; [done | discriminate]. }
  split; [exact Hperm|]. split.
  - intros n. rewrite Hperm, list_elem_of_filter. tauto.
  - unfold getUserNotifications. apply sort_newest_first_sorted.
Qed.

(** X26.  The notification routes keep callers apart: GET /notifications
    returns only notifications of the caller, and filters on unread only
    when the query parameter is exactly 'true'; marking one or all as
    read leaves the notifications of every other user as they were; and
    marking an id that no notification of the caller carries is answered
    404 with the array unchanged, even when another user's notification
    has that id. *)
Theorem notification_routes_isolate_callers (u : Caller) (unreadOnly : option string)
    (id : nat) (notifications : list Notification) :
  Forall (λ n, n_userId n = c_id u) (get_notifications u unreadOnly notifications) ∧
  (unreadOnly ≠ Some "true" →
     get_notifications u unreadOnly notifications
       = getUserNotifications (c_id u) false notifications) ∧
  (∀ other, other ≠ c_id u →
     filter (λ n, n_userId n = other) (put_notification_read u id notifications).2
       = filter (λ n, n_userId n = other) notifications ∧
     filter (λ n, n_userId n = other) (put_mark_all_read u notifications).2
       = filter (λ n, n_userId n = other) notifications) ∧
  ((∀ n, n ∈ notifications → n_id n = id → n_userId n ≠ c_id u) →
     put_notification_read u id notifications
       = (Err 404 "Notification not found", notifications)).
Proof.
  split; [|split; [|split]].
  - apply Forall_forall. intros n Hn. unfold get_notifications in Hn.
    unfold getUserNotifications in Hn. rewrite sort_newest_first_perm in Hn.
    case_bool_decide; repeat (apply list_elem_of_filter in Hn as [? Hn]); tauto.
  - intros Hq. unfold get_notifications. by rewrite bool_decide_eq_false_2.
  - intros other Hne. split.
    + unfold put_notification_read.
      pose proof (filter_markAsRead_other (c_id u) id other notifications Hne) as H.
      by destruct (markAsRead (c_id u) id notifications) as [[] ns].
    + by apply filter_markAllAsRead_other.
  - intros Hforeign. unfold put_notification_read, markAsRead.
    destruct (list_find _ notifications) as [[i n]|] eqn:Hfind; [|done].
    apply list_find_Some in Hfind as (Hi & [Hid Hu] & _).
    destruct (Hforeign n); [by eapply list_elem_of_lookup_2 | done | done].
Qed.

(** ** Listings *)

Lemma pages_bounds (total limit : nat) :
  (1 ≤ limit)%nat →
  (Z.of_nat total ≤ pages total limit * Z.of_nat limit)%Z ∧
  ((pages total limit - 1) * Z.of_nat limit < Z.of_nat total)%Z.
Proof.
  intros Hl. unfold pages.
  set (t := inject_Z (Z.of_nat total)). set (l := inject_Z (Z.of_nat limit)).
  assert (Hlpos : (0 < l)%Q) by (unfold l; rewrite <- (Zlt_Qlt 0); lia).
  assert (Hmul : (t == (t / l) * l)%Q).
  { field. intros H0. rewrite H0 in Hlpos. by apply Qlt_irrefl in Hlpos. }
  split.
  - rewrite Zle_Qle, inject_Z_mult. fold t l. rewrite Hmul at 1.
    apply Qmult_le_compat_r; [apply Qle_ceiling | by apply Qlt_le_weak].
  - rewrite Zlt_Qlt, inject_Z_mult. fold t l. rewrite Hmul at 2.
    apply Qmult_lt_compat_r; [done | apply Qceiling_lt].
Qed.

Lemma concat_pages {A} (limit n : nat) (results : list A) :
  concat ((λ page, page_of page limit results) <$> seq 1 n) = take (n * limit) results.
Proof.
  induction n as [|n IH]; [done|].
  rewrite seq_S, fmap_app, concat_app, IH. simpl. rewrite app_nil_r.
  unfold page_of. replace ((S n - 1) * limit) with (n * limit) by lia.
  replace (limit + n * limit) with (n * limit + limit) by lia.
  apply take_take_drop.
Qed.

(** X28.  Pagination, as every listing route computes it, for a limit of
    at least 1: the page count [Math.ceil(total / limit)] is a natural
    number, the pages 1 to that count put one after the other are exactly
    the query result (every document on one page, in order), each of them
    is non-empty and holds at most [limit] documents, and every later page
    is empty. *)
Theorem pagination_covers {A} (limit : nat) (results : list A) :
  (1 ≤ limit)%nat →
  (0 ≤ pages (length results) limit)%Z ∧
  concat ((λ page, page_of page limit results)
            <$> seq 1 (Z.to_nat (pages (length results) limit))) = results ∧
  (∀ page, (1 ≤ page ≤ Z.to_nat (pages (length results) limit))%nat →
     page_of page limit results ≠ [] ∧
     (length (page_of page limit results) ≤ limit)%nat) ∧
  (∀ page, (Z.to_nat (pages (length results) limit) < page)%nat →
     page_of page limit results = []).
Proof.
  intros Hl. destruct (pages_bounds (length results) limit Hl) as [Hup Hlow].
  assert (Hnn : (0 ≤ pages (length results) limit)%Z) by nia.
  split; [done|]. split; [|split].
  - rewrite concat_pages. apply take_ge. nia.
  - intros page Hpage. unfold page_of. split.
    + intros Hnil. apply (f_equal length) in Hnil.
      rewrite length_take, length_drop in Hnil. simpl in Hnil. nia.
    + rewrite length_take. lia.
  - intros page Hpage. unfold page_of. rewrite drop_ge; [by rewrite take_nil|]. nia.
Qed.

Lemma pagination_covers_witness :
  (1 ≤ 2)%nat ∧
  concat ((λ page, page_of page 2 [10; 20; 30; 40; 50])
            <$> seq 1 (Z.to_nat (pages (length [10; 20; 30; 40; 50]) 2)))
    = [10; 20; 30; 40; 50] ∧
  pages 5 2 = 3%Z.
Proof.
  split; [lia|].
  split; [|reflexivity].
  apply (pagination_covers 2 [10; 20; 30; 40; 50]). lia.
Defined.

(** X27.  The statistics of the public profile agree with the stored
    aggregate: when the rating aggregates are consistent, the profile's
    review count equals the user's ratings count and the shown average is
    the mean of the ratings received as seller; and, in any store, the
    sold and pending counts together never exceed the product count. *)
Theorem user_stats_agree (id : nat) (user : User) (s : Store) :
  users s !! id = Some user →
  (soldProducts (user_stats id user s) + pendingProducts (user_stats id user s)
     ≤ totalProducts (user_stats id user s))%nat ∧
  (ratings_consistent s →
     totalReviews (user_stats id user s) = count (u_ratings user) ∧
     shownAverageRating (user_stats id user s)
       = mean (ratings_by r_sellerId id (reviews s))).
Proof.
  intros Hu. split.
  - simpl.
    set (sold := filter (λ kv : nat * Product,
                   p_sellerId kv.2 = id ∧ p_status kv.2 = P_sold) (products s)).
    set (pend := filter (λ kv : nat * Product,
                   p_sellerId kv.2 = id ∧ p_status kv.2 = P_pending) (products s)).
    assert (Hdisj : sold ##ₘ pend).
    { apply map_disjoint_spec. intros i x y.
      intros [Hx [_ H1]]%map_lookup_filter_Some [Hy [_ H2]]%map_lookup_filter_Some.
      simpl in *. congruence. }
    rewrite <- (map_size_disj_union _ _ Hdisj).
    apply map_subseteq_size, map_union_least;
      apply map_subseteq_spec; intros i x [Hx [Hs _]]%map_lookup_filter_Some;
      by apply map_lookup_filter_Some.
  - intros [_ Hcons]. pose proof (Hcons _ _ Hu) as Hagg.
    unfold user_stats; simpl. rewrite Hagg. simpl. split; [|done].
    unfold ratings_by. by rewrite !length_fmap, length_map_to_list.
Qed.

Lemma user_stats_agree_witness :
  users reviewed_store !! 1 = Some (mkUser R_seller (mkRatings 4%Q 1)) ∧
  (soldProducts (user_stats 1 (mkUser R_seller (mkRatings 4%Q 1)) reviewed_store)
   + pendingProducts (user_stats 1 (mkUser R_seller (mkRatings 4%Q 1)) reviewed_store)
   ≤ totalProducts (user_stats 1 (mkUser R_seller (mkRatings 4%Q 1)) reviewed_store))%nat.
Proof.
  split; [reflexivity|].
  apply (user_stats_agree 1 (mkUser R_seller (mkRatings 4%Q 1)) reviewed_store).
  reflexivity.
Defined.

(** The deletions left out of X13 do leave stale aggregates: after
    DELETE /api/users/:id removes buyer 2 and the review, product 10
    still shows average 4, count 1. *)
Example account_deletion_leaves_stale_aggregates :
  ratings_consistent reviewed_store ∧
  (delete_user_account admin9 2 reviewed_store).1 = Ok 200 ∧
  reviews (delete_user_account admin9 2 reviewed_store).2 = ∅ ∧
  p_ratings <$> products (delete_user_account admin9 2 reviewed_store).2 !! 10
    = Some (mkRatings 4%Q 1) ∧
  ¬ ratings_consistent (delete_user_account admin9 2 reviewed_store).2.
Proof.
  split; [apply (bool_decide_unpack _); vm_compute; exact I|].
  repeat split; try (vm_compute; reflexivity).
  apply (bool_decide_unpack _). vm_compute. exact I.
Qed.
